(** * Financial data warehouse: the ingestion pipeline

    A shallow embedding of [scripts/ingest_financial_data.py]
    (class [FinancialDataPipeline]) and the properties of its control flow:
    the static company catalog, the quote fetch loop, the validator, the
    loader and the pipeline runner.

    The program talks to three external collaborators: the clock
    ([datetime.utcnow]), the market-data HTTP API ([requests.get]) and the
    warehouse SDK ([snowflake.connector.connect], [write_pandas],
    [close]).  They are modelled by an oracle record [World]; every
    statement below is quantified over all worlds.  Effects are threaded
    through a state-and-exception monad [M]: a computation either returns
    a value or raises a Python exception, and in both cases yields the
    updated state (what was logged, requested and written so far). *)

From Stdlib Require Import ZArith Ascii String.
From stdpp Require Import gmap strings list.

Open Scope list_scope.


(** ** Python exceptions (all of them subclasses of [Exception]) *)

Inductive exn : Type :=
  | RequestException      (* requests: connection error, timeout, ... *)
  | JSONDecodeError       (* response.json() on a body that is not JSON *)
  | KeyError (key : string)
  | TypeError
  | ValueError
  | AttributeError
  | OverflowError
  | DatabaseError (code : Z).   (* raised by the warehouse SDK *)

Inductive result (A : Type) : Type :=
  | Ok (a : A)
  | Raise (e : exn).
Arguments Ok {A} a.
Arguments Raise {A} e.

(** ** Python numbers

    [float] values and the conversions [float(x)] and [int(x)] of strings
    are Python built-ins; the program's control flow depends only on
    whether a conversion succeeds.  They are an interface. *)

Class PyNumeric : Type := {
  pyfloat : Type;
  float_of_str : string -> option pyfloat;   (* float("1.5"); None: ValueError *)
  float_of_int : Z -> option pyfloat;        (* float(10); None: OverflowError *)
  int_of_str : string -> option Z;           (* int("42"); None: ValueError *)
  int_of_float : pyfloat -> option Z;        (* int(1.5); None: nan or inf *)
  float_lit : Z -> Z -> pyfloat;             (* the literal m * 10^e, as 148.5 *)
  is_nan : pyfloat -> bool
}.

(** ** Strings *)

Definition ascii_upper (c : ascii) : ascii :=
  let n := nat_of_ascii c in
  if (97 <=? n)%nat && (n <=? 122)%nat then ascii_of_nat (n - 32) else c.

(** [str.upper()], on ASCII strings. *)
Fixpoint upper (s : string) : string :=
  match s with
  | EmptyString => EmptyString
  | String c s' => String (ascii_upper c) (upper s')
  end.

(** [sub in s] for two strings. *)
Fixpoint is_substring (sub s : string) : bool :=
  String.prefix sub s ||
  match s with
  | EmptyString => false
  | String _ s' => is_substring sub s'
  end.

(** ISO dates [YYYY-MM-DD] are ordered chronologically by the
    lexicographic order of strings. *)
Definition date_leb (d1 d2 : string) : bool := String.leb d1 d2.

Section Model.

Context `{Num : PyNumeric}.

(** ** JSON values, as [response.json()] returns them.  A [dict] keeps
    its insertion order: it is an association list. *)

#[local] Unset Elimination Schemes.
Inductive json : Type :=
  | JNull
  | JBool (b : bool)
  | JInt (z : Z)
  | JFloat (f : pyfloat)
  | JStr (s : string)
  | JArr (l : list json)
  | JObj (kvs : list (string * json)).
#[local] Set Elimination Schemes.

Fixpoint assoc (k : string) (kvs : list (string * json)) : option json :=
  match kvs with
  | [] => None
  | (k', v) :: rest => if String.eqb k k' then Some v else assoc k rest
  end.

Definition is_str (k : string) (v : json) : bool :=
  match v with
  | JStr s => String.eqb k s
  | _ => false
  end.

(** ** Records and data frames *)

Record Company : Type := {
  c_ticker : string;
  c_name : string;
  c_sector : string
}.

Record QuoteRecord : Type := {
  q_ticker : string;
  q_date : string;
  q_open_price : pyfloat;
  q_close_price : pyfloat;
  q_high_price : pyfloat;
  q_low_price : pyfloat;
  q_volume : Z;
  q_ingested_at : Z
}.

Inductive cell : Type :=
  | CNull
  | CStr (s : string)
  | CInt (z : Z)
  | CFloat (f : pyfloat)
  | CTime (t : Z).

(** [pandas.isnull] on one cell: [None] and [NaN] are null. *)
Definition isnull (c : cell) : bool :=
  match c with
  | CNull => true
  | CFloat f => is_nan f
  | _ => false
  end.

Record DataFrame : Type := {
  columns : list string;
  rows : list (list cell)
}.

(** [pd.DataFrame()] *)
Definition empty_frame : DataFrame := {| columns := []; rows := [] |}.

(** [df.empty]: some axis has length 0. *)
Definition df_empty (df : DataFrame) : bool :=
  (length (columns df) =? 0)%nat || (length (rows df) =? 0)%nat.

(** [df.isnull().sum()]: per column, the number of null cells. *)
Definition null_count (df : DataFrame) (j : nat) : nat :=
  length (List.filter (fun r => match r !! j with
                                | Some c => isnull c
                                | None => false
                                end) (rows df)).

Definition null_counts (df : DataFrame) : list (string * nat) :=
  imap (fun j col => (col, null_count df j)) (columns df).

Definition null_total (df : DataFrame) : nat :=
  list_sum (map snd (null_counts df)).

Definition quote_columns : list string :=
  ["ticker"; "date"; "open_price"; "close_price"; "high_price";
   "low_price"; "volume"; "ingested_at"].

Definition quote_row (q : QuoteRecord) : list cell :=
  [CStr (q_ticker q); CStr (q_date q); CFloat (q_open_price q);
   CFloat (q_close_price q); CFloat (q_high_price q);
   CFloat (q_low_price q); CInt (q_volume q); CTime (q_ingested_at q)].

(** [pd.DataFrame(data)] for a list of quote dicts. *)
Definition quotes_frame (data : list QuoteRecord) : DataFrame :=
  {| columns := quote_columns; rows := map quote_row data |}.

(** ** The outside world *)

Inductive http_outcome : Type :=
  | HttpRaise (e : exn)                          (* requests.get raises *)
  | HttpResponse (status_code : Z) (body : option json).
      (* body = None: response.json() raises *)

Record World : Type := {
  clock : nat -> Z;                      (* n-th reading of utcnow() *)
  http : nat -> string -> http_outcome;  (* n-th GET, for a symbol *)
  connect_error : option exn;            (* snowflake.connector.connect *)
  use_schema_error : option exn;         (* cursor.execute("USE SCHEMA ..") *)
  write_error : nat -> option exn        (* n-th call of write_pandas *)
}.

Inductive level : Type := INFO | WARNING | ERROR.

(** One constructor per log call of the source, with the values its
    f-string formats. *)
Inductive message : Type :=
  | MsgRule
  | MsgStarting
  | MsgCompleted
  | MsgConnected
  | MsgConnectionFailed (e : exn)
  | MsgFetching
  | MsgFetched (n : nat) (ticker : string)
  | MsgNoData (ticker : string) (note : json)
  | MsgFetchFailed (ticker : string) (status_code : Z)
  | MsgFetchError (e : exn)
  | MsgCreatingDimension
  | MsgValidating (table_name : string)
  | MsgEmptyFrame (table_name : string)
  | MsgNulls (table_name : string) (nulls : list (string * nat))
  | MsgValidationPassed (table_name : string) (n : nat)
  | MsgLoading (n : nat) (table_name : string)
  | MsgLoaded (table_name : string)
  | MsgLoadFailed (table_name : string) (e : exn)
  | MsgUsingMock
  | MsgPipelineFailed (e : exn).

Inductive event : Type :=
  | EvLog (lvl : level) (msg : message)
  | EvConnect
  | EvGet (symbol apikey : string)
  | EvWrite (table_name : string) (df : DataFrame)
            (auto_create_table overwrite : bool)
  | EvClose.

(** What has happened so far.  [data] is the list object that the local
    variable [data] of [fetch_stock_prices] refers to: it is appended to
    in place, so what was appended before an exception is still there
    after it. *)
Record State : Type := {
  trace : list event;          (* in chronological order *)
  ticks : nat;                 (* clock readings taken *)
  gets : nat;                  (* HTTP requests issued *)
  writes : nat;                (* write_pandas calls issued *)
  tables : gmap string (list (list cell));   (* the warehouse *)
  data : list QuoteRecord
}.

Definition emit (e : event) (s : State) : State :=
  {| trace := trace s ++ [e]; ticks := ticks s; gets := gets s;
     writes := writes s; tables := tables s; data := data s |}.

Definition set_data (d : list QuoteRecord) (s : State) : State :=
  {| trace := trace s; ticks := ticks s; gets := gets s;
     writes := writes s; tables := tables s; data := d |}.

Definition set_tables (t : gmap string (list (list cell))) (s : State)
  : State :=
  {| trace := trace s; ticks := ticks s; gets := gets s;
     writes := writes s; tables := t; data := data s |}.

Definition next_tick (s : State) : State :=
  {| trace := trace s; ticks := S (ticks s); gets := gets s;
     writes := writes s; tables := tables s; data := data s |}.

Definition next_get (s : State) : State :=
  {| trace := trace s; ticks := ticks s; gets := S (gets s);
     writes := writes s; tables := tables s; data := data s |}.

Definition next_write (s : State) : State :=
  {| trace := trace s; ticks := ticks s; gets := gets s;
     writes := S (writes s); tables := tables s; data := data s |}.

(** ** The monad *)

Definition M (A : Type) : Type := State -> result A * State.

Definition ret {A} (a : A) : M A := fun s => (Ok a, s).

Definition raise {A} (e : exn) : M A := fun s => (Raise e, s).

Definition bind {A B} (c : M A) (k : A -> M B) : M B :=
  fun s => match c s with
           | (Ok a, s') => k a s'
           | (Raise e, s') => (Raise e, s')
           end.

(** [try: c except Exception as e: h e] *)
Definition try_except {A} (c : M A) (h : exn -> M A) : M A :=
  fun s => match c s with
           | (Ok a, s') => (Ok a, s')
           | (Raise e, s') => h e s'
           end.

(** [try: c finally: f] *)
Definition try_finally {A} (c : M A) (f : M unit) : M A :=
  fun s => match c s with
           | (r, s') => match f s' with
                        | (Ok _, s'') => (r, s'')
                        | (Raise e, s'') => (Raise e, s'')
                        end
           end.

Fixpoint for_each {A} (l : list A) (body : A -> M unit) : M unit :=
  match l with
  | [] => ret tt
  | x :: l' => bind (body x) (fun _ => for_each l' body)
  end.

End Model.

Arguments World {Num}.
Arguments State {Num}.
Arguments M {Num} A.

Notation "'let!' x ':=' c 'in' k" := (bind c (fun x => k))
  (at level 10, x name, c at level 100, k at level 200).
Notation "c '>>;' k" := (bind c (fun _ => k))
  (at level 100, k at level 200, right associativity).

(** ** The program *)

Section Program.

Context `{Num : PyNumeric} (W : World).

(** *** Effects *)

(** [logger.info], [logger.warning], [logger.error] *)
Definition log (lvl : level) (msg : message) : M unit :=
  fun s => (Ok tt, emit (EvLog lvl msg) s).

(** [datetime.utcnow()] *)
Definition utcnow : M Z :=
  fun s => (Ok (clock W (ticks s)), next_tick s).

(** [requests.get(url, params=params, timeout=10)] *)
Definition requests_get (symbol apikey : string) : M (Z * option json) :=
  fun s =>
    let s' := next_get (emit (EvGet symbol apikey) s) in
    match http W (gets s) symbol with
    | HttpRaise e => (Raise e, s')
    | HttpResponse status_code body => (Ok (status_code, body), s')
    end.

(** [response.json()] *)
Definition response_json (response : Z * option json) : M json :=
  fun s => match snd response with
           | Some j => (Ok j, s)
           | None => (Raise JSONDecodeError, s)
           end.

(** [data = []], a read of [data], and [data.append(q)] *)
Definition data_new : M unit :=
  fun s => (Ok tt, set_data [] s).

Definition data_read : M (list QuoteRecord) :=
  fun s => (Ok (data s), s).

Definition data_append (q : QuoteRecord) : M unit :=
  fun s => (Ok tt, set_data (data s ++ [q]) s).

(** The warehouse SDK's [write_pandas(conn, df, table_name,
    auto_create_table, overwrite)]: unless the call raises, the rows of
    [df] replace those of the table when [overwrite] is set and are
    appended to them when it is not; an absent table is created when
    [auto_create_table] is set. *)
Definition write_pandas (conn : option unit) (df : DataFrame)
    (table_name : string) (auto_create_table overwrite : bool) : M unit :=
  fun s =>
    let s' := next_write
                (emit (EvWrite table_name df auto_create_table overwrite) s) in
    match conn with
    | None => (Raise AttributeError, s')
    | Some _ =>
        match write_error W (writes s) with
        | Some e => (Raise e, s')
        | None =>
            match tables s !! table_name with
            | None =>
                if auto_create_table
                then (Ok tt, set_tables (<[table_name := rows df]> (tables s)) s')
                else (Raise (DatabaseError 2003), s')
            | Some old =>
                let new := if overwrite then rows df else old ++ rows df in
                (Ok tt, set_tables (<[table_name := new]> (tables s)) s')
            end
        end
    end.

(** [conn.close()] *)
Definition conn_close : M unit :=
  fun s => (Ok tt, emit EvClose s).

(** *** Python operations on JSON values

    They do not touch the state: each is a [result], lifted into [M]
    where the program uses it. *)

Definition lift {A} (r : result A) : M A := fun s => (r, s).

(** [key in v] *)
Definition py_contains (key : string) (v : json) : result bool :=
  match v with
  | JObj kvs => Ok (bool_decide (is_Some (assoc key kvs)))
  | JArr l => Ok (existsb (is_str key) l)
  | JStr s => Ok (is_substring key s)
  | _ => Raise TypeError
  end.

(** [v[key]] *)
Definition py_getitem (v : json) (key : string) : result json :=
  match v with
  | JObj kvs => match assoc key kvs with
                | Some x => Ok x
                | None => Raise (KeyError key)
                end
  | _ => Raise TypeError
  end.

(** [v.items()] *)
Definition py_items (v : json) : result (list (string * json)) :=
  match v with
  | JObj kvs => Ok kvs
  | _ => Raise AttributeError
  end.

(** [v.get(key, default)] *)
Definition py_get (v : json) (key : string) (default : json) : result json :=
  match v with
  | JObj kvs => Ok (match assoc key kvs with
                    | Some x => x
                    | None => default
                    end)
  | _ => Raise AttributeError
  end.

Definition of_option {A} (o : option A) (e : exn) : result A :=
  match o with
  | Some a => Ok a
  | None => Raise e
  end.

(** [float(v)] *)
Definition py_float (v : json) : result pyfloat :=
  match v with
  | JFloat f => Ok f
  | JInt z => of_option (float_of_int z) OverflowError
  | JBool b => of_option (float_of_int (if b then 1 else 0)) OverflowError
  | JStr s => of_option (float_of_str s) ValueError
  | _ => Raise TypeError
  end.

(** [int(v)] *)
Definition py_int (v : json) : result Z :=
  match v with
  | JInt z => Ok z
  | JBool b => Ok (if b then 1 else 0)%Z
  | JFloat f => of_option (int_of_float f) ValueError
  | JStr s => of_option (int_of_str s) ValueError
  | _ => Raise TypeError
  end.

(** [float(prices[key])] and [int(prices[key])] *)
Definition float_field (prices : json) (key : string) : result pyfloat :=
  match py_getitem prices key with
  | Ok v => py_float v
  | Raise e => Raise e
  end.

Definition int_field (prices : json) (key : string) : result Z :=
  match py_getitem prices key with
  | Ok v => py_int v
  | Raise e => Raise e
  end.

(** *** FinancialDataPipeline *)

Record Pipeline : Type := {
  sf_conn : option unit;
  companies : list Company
}.

Definition catalog : list Company :=
  [ {| c_ticker := "AAPL"; c_name := "Apple Inc."; c_sector := "Technology" |};
    {| c_ticker := "JPM"; c_name := "JPMorgan Chase"; c_sector := "Finance" |};
    {| c_ticker := "JNJ"; c_name := "Johnson & Johnson"; c_sector := "Healthcare" |};
    {| c_ticker := "PG"; c_name := "Procter & Gamble"; c_sector := "Consumer" |};
    {| c_ticker := "XOM"; c_name := "Exxon Mobil"; c_sector := "Energy" |} ].

(** [snowflake.connector.connect(...)] followed by the [USE SCHEMA]
    statement on a cursor. *)
Definition sf_connect : M unit :=
  fun s => match connect_error W with
           | Some e => (Raise e, emit EvConnect s)
           | None => (Ok tt, emit EvConnect s)
           end.

Definition use_schema : M unit :=
  match use_schema_error W with
  | Some e => raise e
  | None => ret tt
  end.

Definition connect_snowflake : M unit :=
  try_except
    (let! conn := sf_connect in
     use_schema >>;
     log INFO MsgConnected >>;
     ret conn)
    (fun e => log ERROR (MsgConnectionFailed e) >>; raise e).

(** [__init__] *)
Definition init : M Pipeline :=
  let! conn := connect_snowflake in
  ret {| sf_conn := Some conn; companies := catalog |}.

(** The dict appended for one daily entry, lines 79-88. *)
Definition quote_of (ticker date_str : string) (prices : json)
  : M QuoteRecord :=
  let! o := lift (float_field prices "1. open") in
  let! c := lift (float_field prices "4. close") in
  let! h := lift (float_field prices "2. high") in
  let! l := lift (float_field prices "3. low") in
  let! vol := lift (int_field prices "6. volume") in
  let! now := utcnow in
  ret {| q_ticker := ticker; q_date := date_str; q_open_price := o;
         q_close_price := c; q_high_price := h; q_low_price := l;
         q_volume := vol; q_ingested_at := now |}.

(** The body of the loop over the companies, lines 64-93. *)
Definition fetch_company (api_key : string) (company : Company) : M unit :=
  let ticker := c_ticker company in
  let! response := requests_get ticker api_key in
  if (fst response =? 200)%Z then
    let! result := response_json response in
    let! present := lift (py_contains "Time Series (Daily)" result) in
    if present then
      let! series := lift (py_getitem result "Time Series (Daily)") in
      let! items := lift (py_items series) in
      for_each (take 30 items)
        (fun item => let! q := quote_of ticker (fst item) (snd item) in
                     data_append q) >>;
      let! data := data_read in
      log INFO (MsgFetched
                  (length (List.filter
                             (fun d => String.eqb (q_ticker d) ticker) data))
                  ticker)
    else
      let! note := lift (py_get result "Note" (JStr "Unknown error")) in
      log WARNING (MsgNoData ticker note)
  else
    log WARNING (MsgFetchFailed ticker (fst response)).

Definition fetch_stock_prices (self : Pipeline) : M DataFrame :=
  log INFO MsgFetching >>;
  let api_key := "demo" in
  data_new >>;
  try_except
    (for_each (take 2 (companies self)) (fetch_company api_key))
    (fun e => log ERROR (MsgFetchError e)) >>;
  let! data := data_read in
  ret (match data with
       | [] => empty_frame
       | _ => quotes_frame data
       end).

Definition company_row (c : Company) : list cell :=
  [CStr (c_ticker c); CStr (c_name c); CStr (c_sector c)].

(** [pd.DataFrame(self.companies)] *)
Definition companies_frame (l : list Company) : DataFrame :=
  {| columns := match l with
                | [] => []
                | _ => ["ticker"; "name"; "sector"]
                end;
     rows := map company_row l |}.

(** [df.assign(created_at=t1, updated_at=t2)] *)
Definition assign_stamps (df : DataFrame) (t1 t2 : Z) : DataFrame :=
  {| columns := columns df ++ ["created_at"; "updated_at"];
     rows := map (fun r => r ++ [CTime t1; CTime t2]) (rows df) |}.

Definition create_company_dimension (self : Pipeline) : M DataFrame :=
  log INFO MsgCreatingDimension >>;
  let! created_at := utcnow in
  let! updated_at := utcnow in
  ret (assign_stamps (companies_frame (companies self)) created_at updated_at).

Definition validate_data (df : DataFrame) (table_name : string) : M bool :=
  log INFO (MsgValidating table_name) >>;
  if df_empty df then
    log WARNING (MsgEmptyFrame table_name) >>;
    ret false
  else
    let nulls := null_counts df in
    (if (0 <? list_sum (map snd nulls))%nat
     then log WARNING
            (MsgNulls table_name
               (List.filter (fun cn => (0 <? snd cn)%nat) nulls))
     else ret tt) >>;
    log INFO (MsgValidationPassed table_name (length (rows df))) >>;
    ret true.

Definition load_to_snowflake (self : Pipeline) (df : DataFrame)
    (table_name : string) : M unit :=
  try_except
    (log INFO (MsgLoading (length (rows df)) table_name) >>;
     write_pandas (sf_conn self) df (upper table_name) true false >>;
     log INFO (MsgLoaded table_name))
    (fun e => log ERROR (MsgLoadFailed table_name e) >>; raise e).

(** The mock frame of lines 164-173; [now] is broadcast to every row. *)
Definition mock_row (ticker date : string) (o c h l : pyfloat) (v now : Z)
  : list cell :=
  [CStr ticker; CStr date; CFloat o; CFloat c; CFloat h; CFloat l;
   CInt v; CTime now].

Definition mock_prices (now : Z) : DataFrame :=
  {| columns := quote_columns;
     rows :=
       [ mock_row "AAPL" "2025-01-10" (float_lit 1500 (-1)) (float_lit 1510 (-1))
           (float_lit 1520 (-1)) (float_lit 1495 (-1)) 50000000 now;
         mock_row "AAPL" "2025-01-09" (float_lit 1485 (-1)) (float_lit 1490 (-1))
           (float_lit 1500 (-1)) (float_lit 1480 (-1)) 45000000 now;
         mock_row "JPM" "2025-01-10" (float_lit 2000 (-1)) (float_lit 2010 (-1))
           (float_lit 2020 (-1)) (float_lit 1995 (-1)) 30000000 now;
         mock_row "JPM" "2025-01-09" (float_lit 1990 (-1)) (float_lit 2000 (-1))
           (float_lit 2010 (-1)) (float_lit 1985 (-1)) 28000000 now ] |}.

(** The banner and the [# Extract] step, lines 147-153. *)
Definition extract (self : Pipeline) : M (DataFrame * DataFrame) :=
  log INFO MsgRule >>;
  log INFO MsgStarting >>;
  log INFO MsgRule >>;
  let! companies_df := create_company_dimension self in
  let! stock_prices_df := fetch_stock_prices self in
  ret (companies_df, stock_prices_df).

(** The [# Validate] step and the closing banner, lines 155-178. *)
Definition validate_and_load (self : Pipeline)
    (companies_df stock_prices_df : DataFrame) : M unit :=
  let! valid := validate_data companies_df "stg_companies" in
  (if valid then load_to_snowflake self companies_df "stg_companies"
   else ret tt) >>;
  let! usable :=
    (if negb (df_empty stock_prices_df)
     then validate_data stock_prices_df "stg_stock_prices"
     else ret false) in
  (if usable then
     load_to_snowflake self stock_prices_df "stg_stock_prices"
   else
     log WARNING MsgUsingMock >>;
     let! now := utcnow in
     load_to_snowflake self (mock_prices now) "stg_stock_prices") >>;
  log INFO MsgRule >>;
  log INFO MsgCompleted >>;
  log INFO MsgRule.

(** The body of the [try] of [run_pipeline], lines 147-178. *)
Definition run_body (self : Pipeline) : M unit :=
  let! frames := extract self in
  validate_and_load self (fst frames) (snd frames).

Definition run_pipeline (self : Pipeline) : M unit :=
  try_finally
    (try_except (run_body self)
       (fun e => log ERROR (MsgPipelineFailed e) >>; raise e))
    (match sf_conn self with
     | Some _ => conn_close
     | None => ret tt
     end).

(** [pipeline = FinancialDataPipeline(); pipeline.run_pipeline()] *)
Definition main : M unit :=
  let! pipeline := init in
  run_pipeline pipeline.

End Program.

(** ** The quote fetch, entry by entry

    A pure reading of the loop body of [fetch_stock_prices]: what one
    catalog entry contributes, given the API's answer and the number of
    clock readings taken before. *)

Section FetchOutcome.

Context `{Num : PyNumeric} (W : World).

(** The record built from one daily entry at the clock reading [now]. *)
Definition daily_quote (ticker : string) (item : string * json) (now : Z)
  : result QuoteRecord :=
  match float_field (snd item) "1. open" with
  | Raise e => Raise e
  | Ok o =>
  match float_field (snd item) "4. close" with
  | Raise e => Raise e
  | Ok c =>
  match float_field (snd item) "2. high" with
  | Raise e => Raise e
  | Ok h =>
  match float_field (snd item) "3. low" with
  | Raise e => Raise e
  | Ok l =>
  match int_field (snd item) "6. volume" with
  | Raise e => Raise e
  | Ok vol =>
      Ok {| q_ticker := ticker; q_date := fst item; q_open_price := o;
            q_close_price := c; q_high_price := h; q_low_price := l;
            q_volume := vol; q_ingested_at := now |}
  end end end end end.

(** The records built from the daily entries [items], in order, the
    first at clock reading number [tick], up to the first entry that
    cannot be converted. *)
Fixpoint daily_quotes (ticker : string) (items : list (string * json))
    (tick : nat) : list QuoteRecord * option exn :=
  match items with
  | [] => ([], None)
  | item :: rest =>
      match daily_quote ticker item (clock W tick) with
      | Raise e => ([], Some e)
      | Ok q =>
          let '(qs, r) := daily_quotes ticker rest (S tick) in (q :: qs, r)
      end
  end.

Inductive entry_outcome : Type :=
  | Fetched (qs : list QuoteRecord)          (* all mapped, loop goes on *)
  | Skipped (warning : message)              (* nothing mapped, loop goes on *)
  | Aborted (qs : list QuoteRecord) (e : exn).  (* exception: loop is left *)

Definition entry_outcome_of (ticker : string) (answer : http_outcome)
    (tick : nat) : entry_outcome :=
  match answer with
  | HttpRaise e => Aborted [] e
  | HttpResponse status_code body =>
      if (status_code =? 200)%Z then
        match body with
        | None => Aborted [] JSONDecodeError
        | Some result =>
            match py_contains "Time Series (Daily)" result with
            | Raise e => Aborted [] e
            | Ok true =>
                match py_getitem result "Time Series (Daily)" with
                | Raise e => Aborted [] e
                | Ok series =>
                    match py_items series with
                    | Raise e => Aborted [] e
                    | Ok items =>
                        match daily_quotes ticker (take 30 items) tick with
                        | (qs, None) => Fetched qs
                        | (qs, Some e) => Aborted qs e
                        end
                    end
                end
            | Ok false =>
                match py_get result "Note" (JStr "Unknown error") with
                | Raise e => Aborted [] e
                | Ok note => Skipped (MsgNoData ticker note)
                end
            end
        end
      else Skipped (MsgFetchFailed ticker status_code)
  end.

(** The state after one entry: one request, the events [evs], and the
    records [qs], each with a clock reading of its own. *)
Definition fetched (evs : list event) (qs : list QuoteRecord) (s : State)
  : State :=
  {| trace := trace s ++ evs; ticks := ticks s + length qs;
     gets := S (gets s); writes := writes s; tables := tables s;
     data := data s ++ qs |}.

Definition count_ticker (ticker : string) (d : list QuoteRecord) : nat :=
  length (List.filter (fun q => String.eqb (q_ticker q) ticker) d).

Definition quotes_of (o : entry_outcome) : list QuoteRecord :=
  match o with
  | Fetched qs => qs
  | _ => []
  end.

Definition is_failure (o : entry_outcome) : bool :=
  match o with
  | Fetched _ => false
  | _ => true
  end.

Definition is_aborted (o : entry_outcome) : bool :=
  match o with
  | Aborted _ _ => true
  | _ => false
  end.

(** The outcome of every entry of [l] taken by itself, one after the
    other: the first is asked in request number [g], at clock reading
    number [tick]. *)
Fixpoint entry_outcomes (l : list Company) (g tick : nat)
  : list entry_outcome :=
  match l with
  | [] => []
  | company :: rest =>
      let o := entry_outcome_of (c_ticker company)
                 (http W g (c_ticker company)) tick in
      o :: entry_outcomes rest (S g) (tick + length (quotes_of o))
  end.

End FetchOutcome.

(** ** Observations on traces *)

Section Observations.

Context `{Num : PyNumeric}.

(** The state after the events [evs] have been recorded. *)
Definition emits (evs : list event) (s : State) : State :=
  {| trace := trace s ++ evs; ticks := ticks s; gets := gets s;
     writes := writes s; tables := tables s; data := data s |}.

Definition is_close (e : event) : bool :=
  match e with EvClose => true | _ => false end.

Definition is_write (e : event) : bool :=
  match e with EvWrite _ _ _ _ => true | _ => false end.

Definition is_write_to (table_name : string) (e : event) : bool :=
  match e with
  | EvWrite t _ _ _ => String.eqb t table_name
  | _ => false
  end.

Definition is_log_at (lvl : level) (e : event) : bool :=
  match e, lvl with
  | EvLog INFO _, INFO | EvLog WARNING _, WARNING | EvLog ERROR _, ERROR => true
  | _, _ => false
  end.

(** The symbols requested from the API, in order. *)
Fixpoint requested (evs : list event) : list string :=
  match evs with
  | [] => []
  | EvGet symbol _ :: evs' => symbol :: requested evs'
  | _ :: evs' => requested evs'
  end.

(** What [validate_data] logs. *)
Definition validate_log (df : DataFrame) (table_name : string) : list event :=
  EvLog INFO (MsgValidating table_name) ::
  if df_empty df then [EvLog WARNING (MsgEmptyFrame table_name)]
  else
    (if (0 <? null_total df)%nat
     then [EvLog WARNING
             (MsgNulls table_name
                (List.filter (fun cn => (0 <? snd cn)%nat) (null_counts df)))]
     else []) ++
    [EvLog INFO (MsgValidationPassed table_name (length (rows df)))].

(** A frame of [n] rows in which every cell of every column is null. *)
Definition all_null_frame (cols : list string) (n : nat) : DataFrame :=
  {| columns := cols;
     rows := replicate n (replicate (length cols) CNull) |}.

(** An answer of the API with a status code other than 200. *)
Definition is_non_200 (answer : http_outcome) : bool :=
  match answer with
  | HttpResponse status_code _ => negb (status_code =? 200)%Z
  | HttpRaise _ => false
  end.

(** What [load_to_snowflake] records: the write is the only call into
    the warehouse SDK. *)
Definition load_log (df : DataFrame) (table_name : string)
    (failure : option exn) : list event :=
  [EvLog INFO (MsgLoading (length (rows df)) table_name);
   EvWrite (upper table_name) df true false;
   match failure with
   | None => EvLog INFO (MsgLoaded table_name)
   | Some e => EvLog ERROR (MsgLoadFailed table_name e)
   end].

(** The warehouse after [new_rows] were appended to a table, which is
    created when it does not exist. *)
Definition appended (table_name : string) (new_rows : list (list cell))
    (tb : gmap string (list (list cell))) : gmap string (list (list cell)) :=
  <[table_name := default [] (tb !! table_name) ++ new_rows]> tb.

(** The events recorded between two states of one run. *)
Definition new_events (s s' : State) : list event :=
  drop (length (trace s)) (trace s').

(** [c] records only events accepted by [P], whatever its outcome. *)
Definition confined (P : event -> bool) {A} (c : M A) : Prop :=
  forall s, exists evs,
    trace (snd (c s)) = trace s ++ evs /\ forallb P evs = true.

(** [c] leaves the component [f] of the state as it found it. *)
Definition stable {X} (f : State -> X) {A} (c : M A) : Prop :=
  forall s, f (snd (c s)) = f s.

(** [c] returns a value from every state: no exception leaves it. *)
Definition never_raises {A} (c : M A) : Prop :=
  forall s, exists a s', c s = (Ok a, s').

(** The daily entries of a successful answer: status 200 and a JSON
    object whose time-series field is an object. *)
Definition series_of (answer : http_outcome)
  : option (list (string * json)) :=
  match answer with
  | HttpResponse status_code (Some (JObj kvs)) =>
      if (status_code =? 200)%Z then
        match assoc "Time Series (Daily)" kvs with
        | Some (JObj items) => Some items
        | _ => None
        end
      else None
  | _ => None
  end.

(** An answer with status 200 whose JSON object has no time-series
    field. *)
Definition lacks_series (answer : http_outcome) : bool :=
  match answer with
  | HttpResponse status_code (Some (JObj kvs)) =>
      (status_code =? 200)%Z
      && negb (bool_decide (is_Some (assoc "Time Series (Daily)" kvs)))
  | _ => false
  end.

(** A daily entry with the five fields the fetch converts. *)
Definition well_formed_entry (item : string * json) : bool :=
  match daily_quote "" item 0 with
  | Ok _ => true
  | Raise _ => false
  end.

(** Dates listed most recent first. *)
Fixpoint newest_first (dates : list string) : bool :=
  match dates with
  | [] => true
  | d :: rest => forallb (fun d' => date_leb d' d) rest && newest_first rest
  end.

End Observations.

(** ** The claims that do not hold as stated

    Each is written here as the specification words it, to be refuted
    at a concrete run below and proved in its amended form. *)

Section Stated.

Context `{Num : PyNumeric} (W : World).

(** "A run whose fetch yields zero quote records loads the 4 mock rows
    to the quotes table." *)
Definition mock_rows_always_loaded (self : Pipeline) (s : State) : Prop :=
  forall companies_df stock_prices_df s1,
    extract W self s = (Ok (companies_df, stock_prices_df), s1) ->
    rows stock_prices_df = [] ->
    exists now,
      List.filter (is_write_to "STG_STOCK_PRICES")
        (new_events s (snd (run_pipeline W self s)))
      = [EvWrite "STG_STOCK_PRICES" (mock_prices now) true false].

(** "Any failure for an entry is handled locally: a warning is logged
    and the entry contributes zero records, the other entries being
    unaffected, and nothing is raised." *)
Definition failures_stay_local (self : Pipeline) (s : State) : Prop :=
  let os := entry_outcomes W (take 2 (companies self)) (gets s) (ticks s) in
  let rs := fetch_stock_prices W self s in
  (exists df, fst rs = Ok df)
  /\ data (snd rs) = concat (map quotes_of os)
  /\ length (List.filter (is_log_at WARNING) (new_events s (snd rs)))
     = length (List.filter is_failure os).

(** "For a successful response the fetch maps at most the most recent 30
    daily entries, each stamped with a fetch-time clock reading." *)
Definition maps_most_recent_30 (api_key : string) (company : Company)
    (s : State) : Prop :=
  forall items,
    series_of (http W (gets s) (c_ticker company)) = Some items ->
    forallb well_formed_entry (take 30 items) = true ->
    let mapped := drop (length (data s))
                    (data (snd (fetch_company W api_key company s))) in
    (length mapped <= 30)%nat
    /\ (forall q, q ∈ mapped -> exists n, q_ingested_at q = clock W n)
    /\ (forall q d,
          q ∈ mapped -> d ∈ map fst items -> d ∉ map q_date mapped ->
          date_leb d (q_date q) = true).

End Stated.

(** ** Further observations *)

Section Further.

Context `{Num : PyNumeric}.

(** The records an entry leaves in [data]: those of a success, and those
    appended before the exception when the entry raised. *)
Definition kept (o : entry_outcome) : list QuoteRecord :=
  match o with
  | Fetched qs => qs
  | Skipped _ => []
  | Aborted qs _ => qs
  end.

(** The number of entries the loop reaches: all of them, or those up to
    and including the first that raises. *)
Fixpoint reached (os : list entry_outcome) : nat :=
  match os with
  | [] => 0
  | o :: rest => if is_aborted o then 1 else S (reached rest)
  end.

(** The events of a fetch: log lines and requests. *)
Definition is_fetch_event (e : event) : bool :=
  match e with
  | EvLog _ _ | EvGet _ _ => true
  | _ => false
  end.

(** The log lines that tell how a run ended. *)
Definition is_completed (e : event) : bool :=
  match e with
  | EvLog INFO MsgCompleted => true
  | _ => false
  end.

Definition is_pipeline_failed (e : event) : bool :=
  match e with
  | EvLog ERROR (MsgPipelineFailed _) => true
  | _ => false
  end.

Definition is_load_failed (e : event) : bool :=
  match e with
  | EvLog ERROR (MsgLoadFailed _ _) => true
  | _ => false
  end.

Definition is_mock_warning (e : event) : bool :=
  match e with
  | EvLog WARNING MsgUsingMock => true
  | _ => false
  end.

(** The events that mark the course of a run: the writes, the switch to
    mock data, and the lines that tell how a load and the run ended. *)
Definition is_milestone (e : event) : bool :=
  is_write e || is_mock_warning e || is_completed e || is_load_failed e
  || is_pipeline_failed e.

(** The lines that tell how a run ended. *)
Definition is_end_marker (e : event) : bool :=
  is_completed e || is_load_failed e || is_pipeline_failed e.

Definition is_connect (e : event) : bool :=
  match e with EvConnect => true | _ => false end.

(** The exception that stops [connect_snowflake], if any: that of
    [snowflake.connector.connect], and that of the [USE SCHEMA] statement
    when the connection was opened. *)
Definition connection_error (W : World) : option exn :=
  match connect_error W with
  | Some e => Some e
  | None => use_schema_error W
  end.

(** The columns of a quote frame that hold prices. *)
Definition price_columns : list string :=
  ["open_price"; "close_price"; "high_price"; "low_price"].

End Further.

(** ** Concrete runs

    A numeric instance that reads plain decimal numerals (digits, with
    an optional fraction for [float] and an optional sign for [int]), and
    the worlds and states at which the statements below are instantiated. *)

Definition digit_of (c : ascii) : option Z :=
  let n := nat_of_ascii c in
  if (48 <=? n)%nat && (n <=? 57)%nat then Some (Z.of_nat (n - 48)) else None.

Fixpoint digits_value (s : string) (acc : Z) : option Z :=
  match s with
  | EmptyString => Some acc
  | String c s' =>
      match digit_of c with
      | Some d => digits_value s' (10 * acc + d)
      | None => None
      end
  end.

Definition decimal_int (s : string) : option Z :=
  match s with
  | EmptyString => None
  | String "-" EmptyString => None
  | String "-" s' => option_map Z.opp (digits_value s' 0)
  | _ => digits_value s 0
  end.

(** The digits after the point: [m * 10^e] so far. *)
Fixpoint fraction_value (s : string) (m e : Z) : option (Z * Z) :=
  match s with
  | EmptyString => Some (m, e)
  | String c s' =>
      match digit_of c with
      | Some d => fraction_value s' (10 * m + d) (e - 1)
      | None => None
      end
  end.

Fixpoint decimal_value (s : string) (m : Z) : option (Z * Z) :=
  match s with
  | EmptyString => Some (m, 0%Z)
  | String "." EmptyString => None
  | String "." s' => fraction_value s' m 0
  | String c s' =>
      match digit_of c with
      | Some d => decimal_value s' (10 * m + d)
      | None => None
      end
  end.

Definition decimal_float (s : string) : option (Z * Z) :=
  match s with
  | EmptyString => None
  | String "." _ => None
  | _ => decimal_value s 0
  end.

(** Numbers [m * 10^e] as pairs [(m, e)]; none of them is a NaN. *)
Definition decimal : PyNumeric :=
  {| pyfloat := Z * Z;
     float_of_str := decimal_float;
     float_of_int := fun z => Some (z, 0%Z);
     int_of_str := decimal_int;
     int_of_float := fun f =>
       Some (if (0 <=? snd f)%Z then fst f * 10 ^ snd f
             else Z.quot (fst f) (10 ^ (- snd f)))%Z;
     float_lit := fun m e => (m, e);
     is_nan := fun _ => false |}.

Section Runs.

#[local] Existing Instance decimal.

Definition clock0 (n : nat) : Z := 1736500000 + Z.of_nat n.

(** A fresh process: nothing logged, an empty warehouse. *)
Definition fresh : State :=
  {| trace := []; ticks := 0; gets := 0; writes := 0; tables := ∅;
     data := [] |}.

(** The pipeline object that [__init__] builds. *)
Definition pipeline0 : Pipeline :=
  {| sf_conn := Some tt; companies := catalog |}.

(** The API answers every request with status 429; the warehouse works. *)
Definition api_exhausted : World :=
  {| clock := clock0;
     http := fun _ _ => HttpResponse 429 None;
     connect_error := None;
     use_schema_error := None;
     write_error := fun _ => None |}.

(** As [api_exhausted], but the first write into the warehouse fails. *)
Definition dimension_write_fails : World :=
  {| clock := clock0;
     http := fun _ _ => HttpResponse 429 None;
     connect_error := None;
     use_schema_error := None;
     write_error := fun n => match n with
                             | O => Some (DatabaseError 2003)
                             | S _ => None
                             end |}.

Definition daily (o h l c v : string) : json :=
  JObj [("1. open", JStr o); ("2. high", JStr h); ("3. low", JStr l);
        ("4. close", JStr c); ("6. volume", JStr v)].

Definition payload (items : list (string * json)) : http_outcome :=
  HttpResponse 200
    (Some (JObj [("Meta Data", JObj []);
                 ("Time Series (Daily)", JObj items)])).

(** AAPL gets two daily entries, the second without its volume; JPM
    would get one well-formed entry. *)
Definition truncated_entry : World :=
  {| clock := clock0;
     http := fun _ symbol =>
       if String.eqb symbol "AAPL" then
         payload
           [("2025-01-10", daily "150.0" "152.0" "149.5" "151.0" "50000000");
            ("2025-01-09",
             JObj [("1. open", JStr "148.5"); ("2. high", JStr "150.0");
                   ("3. low", JStr "148.0"); ("4. close", JStr "149.0")])]
       else
         payload
           [("2025-01-10", daily "200.0" "202.0" "199.5" "201.0" "30000000")];
     connect_error := None;
     use_schema_error := None;
     write_error := fun _ => None |}.

(** AAPL gets two well-formed daily entries, most recent first; JPM is
    answered with status 429. *)
Definition two_days : World :=
  {| clock := clock0;
     http := fun _ symbol =>
       if String.eqb symbol "AAPL" then
         payload
           [("2025-01-10", daily "150.0" "152.0" "149.5" "151.0" "50000000");
            ("2025-01-09", daily "148.5" "150.0" "148.0" "149.0" "45000000")]
       else HttpResponse 429 None;
     connect_error := None;
     use_schema_error := None;
     write_error := fun _ => None |}.

Definition two_digits (n : nat) : string :=
  String (ascii_of_nat (48 + n / 10))
    (String (ascii_of_nat (48 + n mod 10)) EmptyString).

(** The 31 days of January 2025, oldest first. *)
Definition january : list (string * json) :=
  map (fun n => (String.append "2025-01-" (two_digits n),
                 daily "150.0" "152.0" "149.5" "151.0" "50000000"))
      (seq 1 31).

(** Every symbol gets the 31 days of January, oldest first. *)
Definition oldest_first : World :=
  {| clock := clock0;
     http := fun _ _ => payload january;
     connect_error := None;
     use_schema_error := None;
     write_error := fun _ => None |}.

Definition apple : Company :=
  {| c_ticker := "AAPL"; c_name := "Apple Inc."; c_sector := "Technology" |}.

(** The connection is opened, but the [USE SCHEMA] statement fails. *)
Definition schema_missing : World :=
  {| clock := clock0;
     http := fun _ _ => HttpResponse 429 None;
     connect_error := None;
     use_schema_error := Some (DatabaseError 2043);
     write_error := fun _ => None |}.

(** As [two_days], but the second write into the warehouse fails. *)
Definition quotes_write_fails : World :=
  {| clock := clock0;
     http := http two_days;
     connect_error := None;
     use_schema_error := None;
     write_error := fun n => match n with
                             | 1%nat => Some (DatabaseError 2003)
                             | _ => None
                             end |}.

End Runs.

(** ** Properties *)

Section Properties.

Context `{Num : PyNumeric} (W : World).

Lemma emit_emits (e : event) (evs : list event) (s : State) :
  emit e (emits evs s) = emits (evs ++ [e]) s.
Proof. unfold emit, emits; simpl. by rewrite app_assoc. Qed.

Lemma emits_emits (evs1 evs2 : list event) (s : State) :
  emits evs2 (emits evs1 s) = emits (evs1 ++ evs2) s.
Proof. unfold emits; simpl. by rewrite app_assoc. Qed.

Lemma emit_as_emits (e : event) (s : State) : emit e s = emits [e] s.
Proof. reflexivity. Qed.

Lemma new_events_app (s s' : State) (evs : list event) :
  trace s' = trace s ++ evs -> new_events s s' = evs.
Proof. unfold new_events. intros ->. by rewrite drop_app_length. Qed.

(** *** Composition rules *)

Section Confined.

Variable P : event -> bool.

Lemma confined_ret {A} (a : A) : confined P (ret a).
Proof. intros s. exists []. simpl. by rewrite app_nil_r. Qed.

Lemma confined_raise {A} (e : exn) : confined P (raise (A:=A) e).
Proof. intros s. exists []. simpl. by rewrite app_nil_r. Qed.

Lemma confined_lift {A} (r : result A) : confined P (lift r).
Proof. intros s. exists []. simpl. by rewrite app_nil_r. Qed.

Lemma confined_bind {A B} (c : M A) (k : A -> M B) :
  confined P c -> (forall a, confined P (k a)) -> confined P (bind c k).
Proof.
  intros Hc Hk s. unfold bind.
  destruct (Hc s) as (evs1 & E1 & F1).
  destruct (c s) as [[a|e] s1]; simpl in *.
  - destruct (Hk a s1) as (evs2 & E2 & F2).
    exists (evs1 ++ evs2). rewrite E2, E1, app_assoc. split; [done|].
    rewrite forallb_app. by rewrite F1, F2.
  - by exists evs1.
Qed.

Lemma confined_try_except {A} (c : M A) (h : exn -> M A) :
  confined P c -> (forall e, confined P (h e)) -> confined P (try_except c h).
Proof.
  intros Hc Hh s. unfold try_except.
  destruct (Hc s) as (evs1 & E1 & F1).
  destruct (c s) as [[a|e] s1]; simpl in *.
  - by exists evs1.
  - destruct (Hh e s1) as (evs2 & E2 & F2).
    exists (evs1 ++ evs2). rewrite E2, E1, app_assoc. split; [done|].
    rewrite forallb_app. by rewrite F1, F2.
Qed.

Lemma confined_for_each {A} (l : list A) (body : A -> M unit) :
  (forall x, confined P (body x)) -> confined P (for_each l body).
Proof.
  intros Hb. induction l as [|x l IH]; simpl.
  - apply confined_ret.
  - apply confined_bind; auto.
Qed.

Lemma confined_emit (e : event) :
  P e = true -> confined P (fun s => (Ok tt, emit e s)).
Proof. intros He s. exists [e]. simpl. by rewrite He. Qed.

Lemma confined_same_trace {A} (c : M A) :
  (forall s, trace (snd (c s)) = trace s) -> confined P c.
Proof. intros Hc s. exists []. rewrite Hc. by rewrite app_nil_r. Qed.

End Confined.

Section Stable.

Context {X : Type} (f : State -> X).

Lemma stable_ret {A} (a : A) : stable f (ret a).
Proof. by intros s. Qed.

Lemma stable_raise {A} (e : exn) : stable f (raise (A:=A) e).
Proof. by intros s. Qed.

Lemma stable_lift {A} (r : result A) : stable f (lift r).
Proof. by intros s. Qed.

Lemma stable_bind {A B} (c : M A) (k : A -> M B) :
  stable f c -> (forall a, stable f (k a)) -> stable f (bind c k).
Proof.
  intros Hc Hk s. unfold bind. specialize (Hc s).
  destruct (c s) as [[a|e] s1]; simpl in *; [|done].
  by rewrite Hk.
Qed.

Lemma stable_try_except {A} (c : M A) (h : exn -> M A) :
  stable f c -> (forall e, stable f (h e)) -> stable f (try_except c h).
Proof.
  intros Hc Hh s. unfold try_except. specialize (Hc s).
  destruct (c s) as [[a|e] s1]; simpl in *; [done|].
  by rewrite Hh.
Qed.

Lemma stable_for_each {A} (l : list A) (body : A -> M unit) :
  (forall x, stable f (body x)) -> stable f (for_each l body).
Proof.
  intros Hb. induction l as [|x l IH]; simpl.
  - apply stable_ret.
  - apply stable_bind; auto.
Qed.

End Stable.

Lemma never_raises_ret {A} (a : A) : never_raises (ret a).
Proof. intros s. by exists a, s. Qed.

Lemma never_raises_bind {A B} (c : M A) (k : A -> M B) :
  never_raises c -> (forall a, never_raises (k a)) -> never_raises (bind c k).
Proof.
  intros Hc Hk s. unfold bind.
  destruct (Hc s) as (a & s1 & ->). apply Hk.
Qed.

(** A handler that returns swallows every exception of the body. *)
Lemma never_raises_try_except {A} (c : M A) (h : exn -> M A) :
  (forall e, never_raises (h e)) -> never_raises (try_except c h).
Proof.
  intros Hh s. unfold try_except.
  destruct (c s) as [[a|e] s1]; [by exists a, s1 | apply Hh].
Qed.

Lemma never_raises_log (lvl : level) (msg : message) :
  never_raises (log lvl msg).
Proof. intros s. by eexists _, _. Qed.

(** *** What each effect records and leaves alone *)

Section Effects.

Variable P : event -> bool.

Lemma confined_log (lvl : level) (msg : message) :
  P (EvLog lvl msg) = true -> confined P (log lvl msg).
Proof. apply confined_emit. Qed.

Lemma confined_utcnow : confined P (utcnow W).
Proof. by apply confined_same_trace. Qed.

Lemma confined_data_new : confined P data_new.
Proof. by apply confined_same_trace. Qed.

Lemma confined_data_read : confined P data_read.
Proof. by apply confined_same_trace. Qed.

Lemma confined_data_append (q : QuoteRecord) : confined P (data_append q).
Proof. by apply confined_same_trace. Qed.

Lemma confined_response_json (r : Z * option json) :
  confined P (response_json r).
Proof.
  apply confined_same_trace. intros s. unfold response_json.
  by destruct (snd r).
Qed.

Lemma confined_requests_get (symbol apikey : string) :
  P (EvGet symbol apikey) = true -> confined P (requests_get W symbol apikey).
Proof.
  intros HP s. exists [EvGet symbol apikey]. unfold requests_get.
  destruct (http W (gets s) symbol); simpl; by rewrite HP.
Qed.

Lemma confined_write_pandas conn df table_name auto_create overwrite :
  P (EvWrite table_name df auto_create overwrite) = true ->
  confined P (write_pandas W conn df table_name auto_create overwrite).
Proof.
  intros HP s. exists [EvWrite table_name df auto_create overwrite].
  unfold write_pandas.
  destruct conn; [|by simpl; rewrite HP].
  destruct (write_error W (writes s)); [by simpl; rewrite HP|].
  destruct (tables s !! table_name); [by simpl; rewrite HP|].
  destruct auto_create; by simpl; rewrite HP.
Qed.

End Effects.

Ltac confine :=
  repeat first
    [ apply confined_ret | apply confined_raise | apply confined_lift
    | apply confined_utcnow | apply confined_data_new
    | apply confined_data_read | apply confined_data_append
    | apply confined_response_json
    | apply confined_log; solve [auto]
    | apply confined_requests_get; solve [auto]
    | apply confined_write_pandas; solve [auto]
    | apply confined_bind | apply confined_try_except
    | apply confined_for_each
    | match goal with
      | |- confined _ (if ?b then _ else _) => destruct b
      | |- forall _, _ => intro
      end ].

Section MethodsRecord.

Variable P : event -> bool.
Hypothesis P_log : forall lvl msg, P (EvLog lvl msg) = true.

Lemma confined_validate_data df table_name :
  confined P (validate_data df table_name).
Proof. unfold validate_data. confine. Qed.

Lemma confined_create_company_dimension self :
  confined P (create_company_dimension W self).
Proof. unfold create_company_dimension. confine. Qed.

Section Fetch.

Hypothesis P_get : forall symbol apikey, P (EvGet symbol apikey) = true.

Lemma confined_quote_of ticker date_str prices :
  confined P (quote_of W ticker date_str prices).
Proof. unfold quote_of. confine. Qed.

Lemma confined_fetch_company api_key company :
  confined P (fetch_company W api_key company).
Proof. unfold fetch_company. confine. Qed.

Lemma confined_fetch_stock_prices self :
  confined P (fetch_stock_prices W self).
Proof. unfold fetch_stock_prices. confine. Qed.

Lemma confined_extract self : confined P (extract W self).
Proof. unfold extract. confine. Qed.

End Fetch.

Hypothesis P_write :
  forall table_name df a o, P (EvWrite table_name df a o) = true.

Lemma confined_load_to_snowflake self df table_name :
  confined P (load_to_snowflake W self df table_name).
Proof. unfold load_to_snowflake. confine. Qed.

End MethodsRecord.

(** Components of the state that logging, clock readings, HTTP requests
    and the list [data] do not touch: the warehouse and the number of
    writes are such components. *)
Section MethodsKeep.

Context {X : Type} (f : State -> X).
Hypothesis f_emit : forall e s, f (emit e s) = f s.
Hypothesis f_tick : forall s, f (next_tick s) = f s.
Hypothesis f_get : forall s, f (next_get s) = f s.
Hypothesis f_data : forall d s, f (set_data d s) = f s.

Lemma stable_log lvl msg : stable f (log lvl msg).
Proof. intros s. apply f_emit. Qed.

Lemma stable_utcnow : stable f (utcnow W).
Proof. intros s. apply f_tick. Qed.

Lemma stable_data_new : stable f data_new.
Proof. intros s. apply f_data. Qed.

Lemma stable_data_read : stable f data_read.
Proof. by intros s. Qed.

Lemma stable_data_append q : stable f (data_append q).
Proof. intros s. apply f_data. Qed.

Lemma stable_response_json r : stable f (response_json r).
Proof. intros s. unfold response_json. by destruct (snd r). Qed.

Lemma stable_requests_get symbol apikey :
  stable f (requests_get W symbol apikey).
Proof.
  intros s. unfold requests_get.
  destruct (http W (gets s) symbol); simpl; by rewrite f_get, f_emit.
Qed.

Ltac keep :=
  repeat first
    [ apply stable_ret | apply stable_raise | apply stable_lift
    | apply stable_utcnow | apply stable_data_new
    | apply stable_data_read | apply stable_data_append
    | apply stable_response_json | apply stable_log
    | apply stable_requests_get
    | apply stable_bind | apply stable_try_except
    | apply stable_for_each
    | match goal with
      | |- stable _ (if ?b then _ else _) => destruct b
      | |- forall _, _ => intro
      end ].

Lemma stable_validate_data df table_name :
  stable f (validate_data df table_name).
Proof. unfold validate_data. keep. Qed.

Lemma stable_fetch_company api_key company :
  stable f (fetch_company W api_key company).
Proof. unfold fetch_company. keep. Qed.

Lemma stable_fetch_stock_prices self : stable f (fetch_stock_prices W self).
Proof. unfold fetch_stock_prices. keep. Qed.

Lemma stable_extract self : stable f (extract W self).
Proof. unfold extract. keep. Qed.

End MethodsKeep.

(** *** One catalog entry *)

Lemma quote_of_run ticker date_str prices s :
  quote_of W ticker date_str prices s
  = match daily_quote ticker (date_str, prices) (clock W (ticks s)) with
    | Ok q => (Ok q, next_tick s)
    | Raise e => (Raise e, s)
    end.
Proof.
  unfold quote_of, daily_quote, bind, lift, utcnow, ret; simpl.
  destruct (float_field prices "1. open"); [|done].
  destruct (float_field prices "4. close"); [|done].
  destruct (float_field prices "2. high"); [|done].
  destruct (float_field prices "3. low"); [|done].
  by destruct (int_field prices "6. volume").
Qed.

Lemma daily_loop_run ticker items s :
  for_each items
    (fun item => let! q := quote_of W ticker (fst item) (snd item) in
                 data_append q) s
  = (match snd (daily_quotes W ticker items (ticks s)) with
     | None => Ok tt
     | Some e => Raise e
     end,
     {| trace := trace s;
        ticks := ticks s + length (fst (daily_quotes W ticker items (ticks s)));
        gets := gets s; writes := writes s; tables := tables s;
        data := data s ++ fst (daily_quotes W ticker items (ticks s)) |}).
Proof.
  revert s. induction items as [|[d p] items IH]; intros s; simpl.
  - unfold ret. destruct s; simpl. by rewrite Nat.add_0_r, app_nil_r.
  - unfold bind at 1. unfold bind at 1. rewrite quote_of_run. simpl.
    destruct (daily_quote ticker (d, p) (clock W (ticks s))) as [q|e]; simpl.
    + rewrite IH. simpl.
      destruct (daily_quotes W ticker items (S (ticks s))) as [qs r]; simpl.
      f_equal. f_equal; [lia|]. by rewrite <- app_assoc.
    + destruct s; simpl. by rewrite Nat.add_0_r, app_nil_r.
Qed.

Ltac state_eq :=
  unfold emit, emits, next_get, next_tick, next_write, set_data, set_tables,
    fetched;
  simpl; rewrite <- ?app_assoc; simpl; try reflexivity.

Lemma fetched_nil evs s :
  fetched evs [] s
  = {| trace := trace s ++ evs; ticks := ticks s; gets := S (gets s);
       writes := writes s; tables := tables s; data := data s |}.
Proof. unfold fetched; simpl. by rewrite Nat.add_0_r, app_nil_r. Qed.

Lemma fetch_company_run api_key company s :
  fetch_company W api_key company s
  = match entry_outcome_of W (c_ticker company)
            (http W (gets s) (c_ticker company)) (ticks s) with
    | Fetched qs =>
        (Ok tt,
         fetched [EvGet (c_ticker company) api_key;
                  EvLog INFO
                    (MsgFetched (count_ticker (c_ticker company) (data s ++ qs))
                       (c_ticker company))] qs s)
    | Skipped warning =>
        (Ok tt,
         fetched [EvGet (c_ticker company) api_key; EvLog WARNING warning] [] s)
    | Aborted qs e =>
        (Raise e, fetched [EvGet (c_ticker company) api_key] qs s)
    end.
Proof.
  unfold fetch_company, entry_outcome_of.
  unfold bind at 1. unfold requests_get.
  destruct (http W (gets s) (c_ticker company)) as [e|status_code body].
  { by rewrite fetched_nil. }
  cbn [fst snd].
  destruct (status_code =? 200)%Z.
  2:{ unfold log. rewrite fetched_nil. by state_eq. }
  unfold bind at 1. unfold response_json. cbn [fst snd].
  destruct body as [result|]; [|by rewrite fetched_nil].
  unfold bind at 1. unfold lift at 1.
  destruct (py_contains "Time Series (Daily)" result) as [[|]|e];
    [| |by rewrite fetched_nil].
  - unfold bind at 1. unfold lift at 1.
    destruct (py_getitem result "Time Series (Daily)") as [series|e];
      [|by rewrite fetched_nil].
    unfold bind at 1. unfold lift at 1.
    destruct (py_items series) as [items|e]; [|by rewrite fetched_nil].
    unfold bind at 1. rewrite daily_loop_run.
    unfold next_get, emit; cbn [ticks trace gets writes tables data].
    destruct (daily_quotes W (c_ticker company) (take 30 items) (ticks s))
      as [qs [e|]]; cbn [fst snd].
    + by state_eq.
    + unfold bind, data_read, log, count_ticker. by state_eq.
  - unfold bind at 1. unfold lift at 1.
    destruct (py_get result "Note" (JStr "Unknown error")) as [note|e];
      [|by rewrite fetched_nil].
    unfold log. rewrite fetched_nil. by state_eq.
Qed.

(** *** The loop over the catalog *)

(** Exactly one request is issued per entry that is reached, for that
    entry's ticker, and entries are reached in catalog order. *)
Lemma fetch_loop_requests api_key (l : list Company) s :
  exists evs k,
    trace (snd (for_each l (fetch_company W api_key) s)) = trace s ++ evs
    /\ (k <= length l)%nat
    /\ requested evs = map c_ticker (take k l).
Proof.
  revert s. induction l as [|c l IH]; intros s; simpl.
  - exists [], 0%nat. by rewrite app_nil_r.
  - unfold bind. rewrite fetch_company_run.
    destruct (entry_outcome_of W (c_ticker c) (http W (gets s) (c_ticker c))
                (ticks s)) as [qs|w|qs e].
    + destruct (IH (fetched [EvGet (c_ticker c) api_key;
                             EvLog INFO
                               (MsgFetched
                                  (count_ticker (c_ticker c) (data s ++ qs))
                                  (c_ticker c))] qs s))
        as (evs & k & E & Hk & R).
      eexists (_ :: _ :: evs), (S k). rewrite E. simpl.
      rewrite <- app_assoc. simpl. rewrite R. split; [done|]. split; [lia|done].
    + destruct (IH (fetched [EvGet (c_ticker c) api_key; EvLog WARNING w] [] s))
        as (evs & k & E & Hk & R).
      eexists (_ :: _ :: evs), (S k). rewrite E. simpl.
      rewrite <- app_assoc. simpl. rewrite R. split; [done|]. split; [lia|done].
    + exists [EvGet (c_ticker c) api_key], 1%nat. simpl.
      split; [done|]. split; [lia|]. by destruct l.
Qed.

(** When no entry leaves the loop by an exception, every entry is
    processed, each failure is a warning, and the records are those of the
    entries that succeeded. *)
Lemma fetch_loop_no_abort api_key (l : list Company) s :
  existsb is_aborted (entry_outcomes W l (gets s) (ticks s)) = false ->
  exists s' evs,
    for_each l (fetch_company W api_key) s = (Ok tt, s')
    /\ data s'
       = data s ++ concat (map quotes_of (entry_outcomes W l (gets s) (ticks s)))
    /\ trace s' = trace s ++ evs
    /\ length (List.filter (is_log_at WARNING) evs)
       = length (List.filter is_failure
                   (entry_outcomes W l (gets s) (ticks s)))
    /\ List.filter (is_log_at ERROR) evs = [].
Proof.
  revert s. induction l as [|c l IH]; intros s; simpl.
  - intros _. exists s, []. by rewrite !app_nil_r.
  - unfold bind. rewrite fetch_company_run.
    destruct (entry_outcome_of W (c_ticker c) (http W (gets s) (c_ticker c))
                (ticks s)) as [qs|w|qs e]; simpl; [| |done]; intros Hl.
    + destruct (IH (fetched [EvGet (c_ticker c) api_key;
                             EvLog INFO
                               (MsgFetched
                                  (count_ticker (c_ticker c) (data s ++ qs))
                                  (c_ticker c))] qs s) Hl)
        as (s' & evs & -> & D & T & Wn & Er).
      exists s', (EvGet (c_ticker c) api_key ::
                  EvLog INFO (MsgFetched
                                (count_ticker (c_ticker c) (data s ++ qs))
                                (c_ticker c)) :: evs).
      split; [done|]. simpl in *.
      rewrite D, T, <- !app_assoc. done.
    + rewrite Nat.add_0_r in Hl.
      destruct (IH (fetched [EvGet (c_ticker c) api_key; EvLog WARNING w] [] s))
        as (s' & evs & -> & D & T & Wn & Er).
      { simpl. by rewrite Nat.add_0_r. }
      exists s', (EvGet (c_ticker c) api_key :: EvLog WARNING w :: evs).
      split; [done|]. simpl in *.
      rewrite !Nat.add_0_r in *. rewrite app_nil_r in D.
      rewrite D, T, <- !app_assoc. simpl. by rewrite Wn.
Qed.

Lemma requested_app (evs1 evs2 : list event) :
  requested (evs1 ++ evs2) = requested evs1 ++ requested evs2.
Proof.
  induction evs1 as [|e evs1 IH]; [done|].
  destruct e; simpl; by rewrite ?IH.
Qed.

(** [fetch_stock_prices] is its loop between a log line and, when the
    loop was left by an exception, an error line. *)
Lemma fetch_stock_prices_run self s :
  fetch_stock_prices W self s
  = (let rs := for_each (take 2 (companies self)) (fetch_company W "demo")
                 (set_data [] (emit (EvLog INFO MsgFetching) s)) in
     let s' := match fst rs with
               | Ok _ => snd rs
               | Raise e => emit (EvLog ERROR (MsgFetchError e)) (snd rs)
               end in
     (Ok (match data s' with
          | [] => empty_frame
          | _ => quotes_frame (data s')
          end), s')).
Proof.
  unfold fetch_stock_prices, bind, try_except, log, data_new, data_read, ret.
  destruct (for_each (take 2 (companies self)) (fetch_company W "demo")
              (set_data [] (emit (EvLog INFO MsgFetching) s)))
    as [[[]|e] s2]; reflexivity.
Qed.

(** *** Exceptions *)

Lemma non_200_skipped ticker answer tick :
  is_non_200 answer = true ->
  exists status_code,
    entry_outcome_of W ticker answer tick
    = Skipped (MsgFetchFailed ticker status_code).
Proof.
  destruct answer as [e|status_code body]; simpl; [done|].
  destruct (status_code =? 200)%Z; [done|]. by exists status_code.
Qed.

Lemma all_non_200_outcomes (l : list Company) (g tick : nat) :
  (forall n symbol, is_non_200 (http W n symbol) = true) ->
  existsb is_aborted (entry_outcomes W l g tick) = false
  /\ concat (map quotes_of (entry_outcomes W l g tick)) = [].
Proof.
  intros H. revert g tick. induction l as [|c l IH]; intros g tick; simpl.
  - done.
  - destruct (non_200_skipped (c_ticker c) (http W g (c_ticker c)) tick (H _ _))
      as [status_code ->]. simpl. apply IH.
Qed.

(** The log line, the reset of [data] and the final read return, and the
    handler of the [try] returns whatever the loop raised. *)
Lemma fetch_stock_prices_total (self : Pipeline) :
  never_raises (fetch_stock_prices W self).
Proof.
  unfold fetch_stock_prices.
  apply never_raises_bind; [apply never_raises_log|intros _].
  apply never_raises_bind; [intros s; by eexists _, _|intros _].
  apply never_raises_bind.
  - apply never_raises_try_except. intros e. apply never_raises_log.
  - intros _. apply never_raises_bind; [intros s; by eexists _, _|].
    intros d. apply never_raises_ret.
Qed.

(** C3. [fetch_stock_prices] returns a frame from every state, in every
    world: no exception leaves it.  When every answer of the API has a
    status code other than 200, the frame it returns is the empty one. *)
Theorem fetch_never_raises (self : Pipeline) :
  never_raises (fetch_stock_prices W self)
  /\ ((forall n symbol, is_non_200 (http W n symbol) = true) ->
      forall s, fst (fetch_stock_prices W self s) = Ok empty_frame).
Proof.
  split; [apply fetch_stock_prices_total|].
  intros H s. rewrite fetch_stock_prices_run. cbn zeta.
  set (s1 := set_data [] (emit (EvLog INFO MsgFetching) s)).
  destruct (all_non_200_outcomes (take 2 (companies self)) (gets s1)
              (ticks s1) H) as [Hab Hq].
  destruct (fetch_loop_no_abort "demo" _ s1 Hab)
    as (s' & evs & -> & D & _). simpl.
  by rewrite D, Hq.
Qed.

(** *** Queries *)

(** C6. Whatever the size of the catalog, the requests that
    [fetch_stock_prices] issues are, in order, those for the tickers of a
    prefix of at most 2 entries of the catalog: no entry beyond the second
    is queried. *)
Theorem fetch_queries_at_most_two (self : Pipeline) (s : State) :
  exists k,
    (k <= 2)%nat
    /\ requested (new_events s (snd (fetch_stock_prices W self s)))
       = map c_ticker (take k (companies self)).
Proof.
  rewrite fetch_stock_prices_run. cbn zeta.
  destruct (fetch_loop_requests "demo" (take 2 (companies self))
              (set_data [] (emit (EvLog INFO MsgFetching) s)))
    as (evs & k & E & Hk & R).
  rewrite length_take in Hk.
  exists k. split; [lia|].
  rewrite take_take in R. replace (k `min` 2)%nat with k in R by lia.
  destruct (for_each (take 2 (companies self)) (fetch_company W "demo")
              (set_data [] (emit (EvLog INFO MsgFetching) s)))
    as [[[]|e] s2]; simpl in *.
  - rewrite (new_events_app s s2 (EvLog INFO MsgFetching :: evs)).
    + done.
    + rewrite E. by rewrite <- app_assoc.
  - rewrite (new_events_app s _ (EvLog INFO MsgFetching :: evs
                                  ++ [EvLog ERROR (MsgFetchError e)])).
    + simpl. rewrite requested_app. simpl. by rewrite app_nil_r.
    + simpl. rewrite E. by rewrite <- !app_assoc.
Qed.

(** *** The loader *)

Lemma load_to_snowflake_run self df table_name s :
  load_to_snowflake W self df table_name s
  = match sf_conn self, write_error W (writes s) with
    | None, _ =>
        (Raise AttributeError,
         next_write (emits (load_log df table_name (Some AttributeError)) s))
    | Some _, Some e =>
        (Raise e, next_write (emits (load_log df table_name (Some e)) s))
    | Some _, None =>
        (Ok tt,
         set_tables (appended (upper table_name) (rows df) (tables s))
           (next_write (emits (load_log df table_name None) s)))
    end.
Proof.
  unfold load_to_snowflake, try_except, bind, log, write_pandas, raise,
    load_log, appended.
  cbn [writes emit tables].
  destruct (sf_conn self); [|by state_eq].
  destruct (write_error W (writes s)); [by state_eq|].
  destruct (tables s !! upper table_name); by state_eq.
Qed.

(** C8. [load_to_snowflake] calls the warehouse write exactly once, with
    the uppercased table name, [auto_create_table=True] and
    [overwrite=False].  When the write returns, the rows of the frame
    have been appended to the rows the table had (none when the table
    did not exist: it is created); when it raises, the warehouse is as
    it was.  No other table changes. *)
Theorem load_uppercases_and_appends
    (self : Pipeline) (df : DataFrame) (table_name : string) (s : State) :
  let rs := load_to_snowflake W self df table_name s in
  List.filter is_write (new_events s (snd rs))
  = [EvWrite (upper table_name) df true false]
  /\ tables (snd rs)
     = match fst rs with
       | Ok _ => <[upper table_name :=
                    default [] (tables s !! upper table_name) ++ rows df]>
                   (tables s)
       | Raise _ => tables s
       end
  /\ forall other, other <> upper table_name ->
       tables (snd rs) !! other = tables s !! other.
Proof.
  cbn zeta. rewrite load_to_snowflake_run.
  destruct (sf_conn self) as [conn|]; [destruct (write_error W (writes s))|];
    cbn [fst snd]; unfold new_events; cbn [trace tables next_write emits set_tables];
    rewrite drop_app_length; (split; [done|]); (split; [done|]);
    intros other Hne; try done.
  unfold appended. by rewrite lookup_insert_ne.
Qed.

Ltac merge_emits :=
  repeat rewrite emit_as_emits; repeat rewrite emits_emits; simpl.

(** *** The validator *)

Lemma validate_data_run (df : DataFrame) (table_name : string) (s : State) :
  validate_data df table_name s
  = (Ok (negb (df_empty df)), emits (validate_log df table_name) s).
Proof.
  unfold validate_data, validate_log, null_total, bind, log, ret.
  destruct (df_empty df); simpl; [by merge_emits|].
  destruct (0 <? list_sum (map snd (null_counts df)))%nat; simpl;
    by merge_emits.
Qed.

(** C4. [validate_data] returns [False] exactly on an empty frame, where
    it logs the empty-frame warning; on every non-empty frame it returns
    [True], whatever the number of null cells, which are only reported
    in a warning: so it does on a frame in which every cell is null. *)
Theorem validate_data_only_rejects_empty
    (df : DataFrame) (table_name : string) (s : State) :
  validate_data df table_name s
  = (Ok (negb (df_empty df)), emits (validate_log df table_name) s)
  /\ (if df_empty df
      then validate_log df table_name
           = [EvLog INFO (MsgValidating table_name);
              EvLog WARNING (MsgEmptyFrame table_name)]
      else List.filter (is_log_at ERROR) (validate_log df table_name) = []
           /\ length (List.filter (is_log_at WARNING)
                        (validate_log df table_name))
              = (if (0 <? null_total df)%nat then 1 else 0)%nat)
  /\ fst (validate_data empty_frame table_name s) = Ok false
  /\ (forall col cols n,
        fst (validate_data (all_null_frame (col :: cols) (S n)) table_name s)
        = Ok true).
Proof.
  split; [apply validate_data_run|]. split.
  - unfold validate_log. destruct (df_empty df); [done|].
    by destruct (0 <? null_total df)%nat.
  - split; [by rewrite validate_data_run|].
    intros col cols n. by rewrite validate_data_run.
Qed.

(** *** The runner *)

Lemma validate_log_no_sdk df table_name :
  List.filter is_write (validate_log df table_name) = []
  /\ forallb (fun e => negb (is_close e)) (validate_log df table_name) = true.
Proof.
  unfold validate_log. destruct (df_empty df); [done|].
  by destruct (0 <? null_total df)%nat.
Qed.

Ltac load_trace :=
  cbn [fst snd trace tables next_write next_tick emit emits set_tables];
  rewrite <- ?app_assoc; reflexivity.

Ltac load_rest :=
  cbn [fst snd trace tables next_write next_tick emit emits set_tables];
  rewrite ?forallb_app, ?List.filter_app;
  repeat match goal with
         | H : List.filter is_write (validate_log _ _) = [] |- _ => rewrite H
         | H : forallb _ (validate_log _ _) = true |- _ => rewrite H
         end;
  done.

(** The quotes that the runner loads: the fetched frame, or the mock
    frame stamped with the next clock reading when the fetched frame is
    empty. *)
Lemma validate_and_load_run self companies_df stock_prices_df s conn :
  sf_conn self = Some conn ->
  df_empty companies_df = false ->
  let quotes := if df_empty stock_prices_df
                then mock_prices (clock W (ticks s))
                else stock_prices_df in
  let rs := validate_and_load W self companies_df stock_prices_df s in
  exists evs,
    trace (snd rs) = trace s ++ evs
    /\ forallb (fun e => negb (is_close e)) evs = true
    /\ match write_error W (writes s), write_error W (S (writes s)) with
       | Some e, _ =>
           fst rs = Raise e
           /\ List.filter is_write evs
              = [EvWrite "STG_COMPANIES" companies_df true false]
           /\ tables (snd rs) = tables s
       | None, Some e =>
           fst rs = Raise e
           /\ List.filter is_write evs
              = [EvWrite "STG_COMPANIES" companies_df true false;
                 EvWrite "STG_STOCK_PRICES" quotes true false]
           /\ tables (snd rs)
              = appended "STG_COMPANIES" (rows companies_df) (tables s)
       | None, None =>
           fst rs = Ok tt
           /\ List.filter is_write evs
              = [EvWrite "STG_COMPANIES" companies_df true false;
                 EvWrite "STG_STOCK_PRICES" quotes true false]
           /\ tables (snd rs)
              = appended "STG_STOCK_PRICES" (rows quotes)
                  (appended "STG_COMPANIES" (rows companies_df) (tables s))
       end.
Proof.
  intros Hconn Hne quotes rs.
  destruct (validate_log_no_sdk companies_df "stg_companies") as [Vw Vc].
  destruct (validate_log_no_sdk stock_prices_df "stg_stock_prices")
    as [Vw' Vc'].
  assert (Hrs : rs = validate_and_load W self companies_df stock_prices_df s)
    by reflexivity.
  clearbody rs. unfold validate_and_load in Hrs.
  unfold bind at 1 in Hrs. rewrite validate_data_run, Hne in Hrs.
  cbn [negb] in Hrs.
  unfold bind at 1 in Hrs. rewrite load_to_snowflake_run, Hconn in Hrs.
  cbn [writes emits] in Hrs.
  destruct (write_error W (writes s)) as [e|].
  { subst rs. eexists. split; [load_trace|]. load_rest. }
  unfold bind at 1 in Hrs. subst quotes.
  destruct (df_empty stock_prices_df) eqn:Hp; cbn [negb] in Hrs.
  - unfold ret at 1 in Hrs. unfold bind at 1 in Hrs.
    unfold bind at 1 in Hrs. unfold log at 1 in Hrs.
    unfold bind at 1 in Hrs. unfold utcnow at 1 in Hrs.
    rewrite load_to_snowflake_run, Hconn in Hrs.
    cbn [writes ticks emit emits next_tick next_write set_tables trace tables]
      in Hrs.
    destruct (write_error W (S (writes s))) as [e|]; subst rs.
    + eexists. split; [load_trace|]. load_rest.
    + eexists. unfold bind, log. split; [load_trace|]. load_rest.
  - unfold bind at 1 in Hrs. rewrite validate_data_run, Hp in Hrs.
    cbn [negb] in Hrs.
    unfold bind at 1 in Hrs. rewrite load_to_snowflake_run, Hconn in Hrs.
    cbn [writes ticks emit emits next_tick next_write set_tables trace tables]
      in Hrs.
    destruct (write_error W (S (writes s))) as [e|]; subst rs.
    + eexists. split; [load_trace|]. load_rest.
    + eexists. unfold bind, log. split; [load_trace|]. load_rest.
Qed.

Lemma init_inv s0 self s0' :
  init W s0 = (Ok self, s0') ->
  sf_conn self = Some tt /\ companies self = catalog.
Proof.
  unfold init, bind, ret.
  destruct (connect_snowflake W s0) as [[[]|e] s1]; [|done].
  by intros [= <- _].
Qed.

(** The extract step returns, and touches neither the warehouse nor the
    connection. *)
Lemma extract_run self s :
  exists stock_prices_df s1 evs,
    extract W self s
    = (Ok (assign_stamps (companies_frame (companies self))
             (clock W (ticks s)) (clock W (S (ticks s))),
           stock_prices_df), s1)
    /\ trace s1 = trace s ++ evs
    /\ forallb (fun e => negb (is_write e) && negb (is_close e)) evs = true
    /\ writes s1 = writes s
    /\ tables s1 = tables s.
Proof.
  pose proof (stable_extract writes
                ltac:(done) ltac:(done) ltac:(done) ltac:(done) self s) as Hw.
  pose proof (stable_extract tables
                ltac:(done) ltac:(done) ltac:(done) ltac:(done) self s) as Ht.
  destruct (confined_extract
              (fun e => negb (is_write e) && negb (is_close e))
              ltac:(done) ltac:(done) self s) as (evs & Htr & Hevs).
  revert Hw Ht Htr.
  unfold extract, create_company_dimension, bind, log, utcnow, ret.
  cbn [ticks emit next_tick].
  match goal with
  | |- context [fetch_stock_prices W self ?s0] =>
      destruct (fetch_stock_prices_total self s0) as (df & s1 & ->)
  end.
  cbn [snd]. intros Hw Ht Htr. by exists df, s1, evs.
Qed.

Lemma run_pipeline_run self s conn companies_df stock_prices_df s1 :
  sf_conn self = Some conn ->
  extract W self s = (Ok (companies_df, stock_prices_df), s1) ->
  run_pipeline W self s
  = (let rs := validate_and_load W self companies_df stock_prices_df s1 in
     match fst rs with
     | Ok _ => (Ok tt, emit EvClose (snd rs))
     | Raise e =>
         (Raise e,
          emit EvClose (emit (EvLog ERROR (MsgPipelineFailed e)) (snd rs)))
     end).
Proof.
  intros Hconn Hex.
  unfold run_pipeline, try_finally, try_except, run_body, bind.
  rewrite Hex, Hconn. cbn [fst snd].
  by destruct (validate_and_load W self companies_df stock_prices_df s1)
    as [[[]|e] s2].
Qed.

Lemma filter_write_to (table_name : string) (evs : list event) :
  List.filter (is_write_to table_name) evs
  = List.filter (is_write_to table_name) (List.filter is_write evs).
Proof.
  induction evs as [|e evs IH]; [done|].
  destruct e; simpl; try done.
  destruct (String.eqb _ _); by rewrite IH.
Qed.

Lemma quiet_events (evs : list event) :
  forallb (fun e => negb (is_write e) && negb (is_close e)) evs = true ->
  List.filter is_write evs = []
  /\ forallb (fun e => negb (is_close e)) evs = true.
Proof.
  induction evs as [|e evs IH]; [done|]. simpl.
  intros [[Hw Hc]%andb_prop H]%andb_prop.
  destruct (IH H) as [-> ->]. rewrite Hc.
  by destruct (is_write e).
Qed.

(** One run of a pipeline built by [__init__], from any state: the
    events before the final [close], the outcome and the warehouse, by
    the outcome of the (at most two) writes. *)
Lemma run_pipeline_summary s0 self s0' s :
  init W s0 = (Ok self, s0') ->
  exists stock_prices_df s1 evs,
    let dim := assign_stamps (companies_frame catalog)
                 (clock W (ticks s)) (clock W (S (ticks s))) in
    let quotes := if df_empty stock_prices_df
                  then mock_prices (clock W (ticks s1))
                  else stock_prices_df in
    let rs := run_pipeline W self s in
    extract W self s = (Ok (dim, stock_prices_df), s1)
    /\ trace (snd rs) = trace s ++ evs ++ [EvClose]
    /\ forallb (fun e => negb (is_close e)) evs = true
    /\ match write_error W (writes s), write_error W (S (writes s)) with
       | Some e, _ =>
           fst rs = Raise e
           /\ List.filter is_write evs = [EvWrite "STG_COMPANIES" dim true false]
           /\ tables (snd rs) = tables s
       | None, Some e =>
           fst rs = Raise e
           /\ List.filter is_write evs
              = [EvWrite "STG_COMPANIES" dim true false;
                 EvWrite "STG_STOCK_PRICES" quotes true false]
           /\ tables (snd rs) = appended "STG_COMPANIES" (rows dim) (tables s)
       | None, None =>
           fst rs = Ok tt
           /\ List.filter is_write evs
              = [EvWrite "STG_COMPANIES" dim true false;
                 EvWrite "STG_STOCK_PRICES" quotes true false]
           /\ tables (snd rs)
              = appended "STG_STOCK_PRICES" (rows quotes)
                  (appended "STG_COMPANIES" (rows dim) (tables s))
       end.
Proof.
  intros [Hconn Hcat]%init_inv.
  destruct (extract_run self s) as (p_df & s1 & evs1 & Hex & Htr & Hq & Hw & Ht).
  rewrite Hcat in Hex.
  destruct (quiet_events evs1 Hq) as [Hq1 Hq2].
  exists p_df, s1. cbn zeta.
  rewrite (run_pipeline_run self s tt _ _ s1 Hconn Hex). cbn zeta.
  destruct (validate_and_load_run self
              (assign_stamps (companies_frame catalog)
                 (clock W (ticks s)) (clock W (S (ticks s))))
              p_df s1 tt Hconn eq_refl) as (evs2 & Htr2 & Hc2 & Hcase).
  cbn zeta in Hcase. rewrite Hw, Ht in Hcase.
  destruct (write_error W (writes s)) as [e|];
    [|destruct (write_error W (S (writes s))) as [e|]];
    destruct Hcase as (Hr & Hf & Htb); rewrite Hr; cbn [fst snd].
  - exists (evs1 ++ evs2 ++ [EvLog ERROR (MsgPipelineFailed e)]).
    split; [done|]. cbn [trace emit]. rewrite Htr2, Htr, <- !app_assoc.
    split; [done|].
    rewrite !forallb_app, !List.filter_app, Hq1, Hq2, Hc2, Hf. done.
  - exists (evs1 ++ evs2 ++ [EvLog ERROR (MsgPipelineFailed e)]).
    split; [done|]. cbn [trace emit]. rewrite Htr2, Htr, <- !app_assoc.
    split; [done|].
    rewrite !forallb_app, !List.filter_app, Hq1, Hq2, Hc2, Hf. done.
  - exists (evs1 ++ evs2).
    split; [done|]. cbn [trace emit]. rewrite Htr2, Htr, <- !app_assoc.
    split; [done|].
    rewrite !forallb_app, !List.filter_app, Hq1, Hq2, Hc2, Hf. done.
Qed.

Lemma no_close_filter (evs : list event) :
  forallb (fun e => negb (is_close e)) evs = true ->
  List.filter is_close evs = [].
Proof.
  induction evs as [|e evs IH]; [done|]. simpl.
  intros [He H]%andb_prop. destruct (is_close e); [done|]. by apply IH.
Qed.

(** C2. In every run of a pipeline built by [__init__], the connection's
    [close] is called exactly once and it is the last thing the run
    does, whether the run returns or raises.  A load failure is re-raised:
    the run raises the error of the first write that fails, and returns
    when none does. *)
Theorem connection_released_exactly_once
    (s0 : State) (self : Pipeline) (s0' : State) (s : State) :
  init W s0 = (Ok self, s0') ->
  let rs := run_pipeline W self s in
  length (List.filter is_close (new_events s (snd rs))) = 1%nat
  /\ last (trace (snd rs)) = Some EvClose
  /\ fst rs = match write_error W (writes s),
                    write_error W (S (writes s)) with
              | Some e, _ => Raise e
              | None, Some e => Raise e
              | None, None => Ok tt
              end.
Proof.
  intros Hinit.
  destruct (run_pipeline_summary s0 self s0' s Hinit)
    as (p_df & s1 & evs & _ & Htr & Hc & Hcase).
  cbn zeta in *.
  rewrite (new_events_app _ _ _ Htr), Htr.
  rewrite List.filter_app, (no_close_filter _ Hc), app_assoc, last_snoc.
  split; [done|]. split; [done|].
  destruct (write_error W (writes s)) as [e|];
    [|destruct (write_error W (S (writes s))) as [e|]];
    by destruct Hcase as (-> & _).
Qed.

(** C10. In every run of a pipeline built by [__init__], the company
    dimension has the 5 rows of the catalog and no null cell; its
    validation returns [True] in every state, and the run issues exactly
    one write to [STG_COMPANIES], of that frame: the load of the dimension
    is never skipped. *)
Theorem company_dimension_always_loaded
    (s0 : State) (self : Pipeline) (s0' : State) (s : State) :
  init W s0 = (Ok self, s0') ->
  let dim := assign_stamps (companies_frame catalog)
               (clock W (ticks s)) (clock W (S (ticks s))) in
  let rs := run_pipeline W self s in
  fst (create_company_dimension W self s) = Ok dim
  /\ length (rows dim) = 5%nat
  /\ df_empty dim = false
  /\ null_total dim = 0%nat
  /\ (forall s', fst (validate_data dim "stg_companies" s') = Ok true)
  /\ List.filter (is_write_to "STG_COMPANIES") (new_events s (snd rs))
     = [EvWrite "STG_COMPANIES" dim true false].
Proof.
  intros Hinit.
  destruct (run_pipeline_summary s0 self s0' s Hinit)
    as (p_df & s1 & evs & _ & Htr & Hc & Hcase).
  destruct (init_inv _ _ _ Hinit) as [_ Hcat].
  cbn zeta in *.
  split.
  { unfold create_company_dimension, bind, log, utcnow, ret. simpl.
    by rewrite Hcat. }
  split; [done|]. split; [done|]. split; [done|].
  split; [intros s'; by rewrite validate_data_run|].
  rewrite (new_events_app _ _ _ Htr).
  rewrite List.filter_app, filter_write_to.
  destruct (write_error W (writes s)) as [e|];
    [|destruct (write_error W (S (writes s))) as [e|]];
    destruct Hcase as (_ & -> & _); done.
Qed.

(** C9. The catalog has exactly 5 records, with pairwise distinct
    tickers, in a fixed order, and it is the catalog of every pipeline
    that [__init__] builds. *)
Theorem catalog_five_distinct_tickers (s : State) :
  length catalog = 5%nat
  /\ map c_ticker catalog = ["AAPL"; "JPM"; "JNJ"; "PG"; "XOM"]
  /\ NoDup (map c_ticker catalog)
  /\ match init W s with
     | (Ok self, _) => companies self = catalog
     | (Raise _, _) => True
     end.
Proof.
  split; [done|]. split; [done|]. split.
  - apply (bool_decide_unpack _). by vm_compute.
  - destruct (init W s) as [[self|e] s'] eqn:Hinit; [|done].
    by destruct (init_inv _ _ _ Hinit).
Qed.

(** C1, amended. In a run of a pipeline built by [__init__] whose fetch
    yields zero quote records and whose company dimension load does not
    fail, the runner issues exactly one write to [STG_STOCK_PRICES], of
    the mock frame, which has exactly 4 rows.  When that write does not
    fail either, the run returns and the 4 rows are appended to the
    table; when it fails, the run raises its error and the table is as
    it was. *)
Theorem mock_rows_loaded_unless_dimension_load_fails
    (s0 : State) (self : Pipeline) (s0' : State) (s : State)
    (companies_df stock_prices_df : DataFrame) (s1 : State) :
  init W s0 = (Ok self, s0') ->
  extract W self s = (Ok (companies_df, stock_prices_df), s1) ->
  rows stock_prices_df = [] ->
  write_error W (writes s) = None ->
  let rs := run_pipeline W self s in
  let mock := mock_prices (clock W (ticks s1)) in
  List.filter (is_write_to "STG_STOCK_PRICES") (new_events s (snd rs))
  = [EvWrite "STG_STOCK_PRICES" mock true false]
  /\ length (rows mock) = 4%nat
  /\ match write_error W (S (writes s)) with
     | None =>
         fst rs = Ok tt
         /\ tables (snd rs) !! "STG_STOCK_PRICES"
            = Some (default [] (tables s !! "STG_STOCK_PRICES") ++ rows mock)
     | Some e =>
         fst rs = Raise e
         /\ tables (snd rs) !! "STG_STOCK_PRICES"
            = tables s !! "STG_STOCK_PRICES"
     end.
Proof.
  intros Hinit Hex Hrows Hw.
  destruct (run_pipeline_summary s0 self s0' s Hinit)
    as (p_df & s1' & evs & Hex' & Htr & Hc & Hcase).
  cbn zeta in *. rewrite Hex in Hex'. injection Hex' as _ <- <-.
  assert (df_empty stock_prices_df = true) as Hemp.
  { unfold df_empty. rewrite Hrows. apply orb_true_r. }
  rewrite Hemp, Hw in Hcase.
  rewrite (new_events_app _ _ _ Htr), List.filter_app, filter_write_to.
  destruct (write_error W (S (writes s))) as [e|];
    destruct Hcase as (-> & -> & ->).
  - split; [done|]. split; [done|]. split; [done|].
    unfold appended. by rewrite lookup_insert_ne.
  - split; [done|]. split; [done|]. split; [done|].
    unfold appended. rewrite lookup_insert_eq.
    by rewrite lookup_insert_ne.
Qed.

(** *** Failures of one entry *)

Lemma missing_series_skipped ticker answer tick :
  lacks_series answer = true ->
  exists note,
    entry_outcome_of W ticker answer tick = Skipped (MsgNoData ticker note).
Proof.
  destruct answer as [e|status_code [[| | | | | |kvs]|]]; simpl; try done.
  intros [-> Hk%negb_true_iff]%andb_prop. rewrite Hk. simpl. by eexists.
Qed.

(** The first entry that raises ends the loop: the exception leaves it,
    and the loop itself has logged no error. *)
Lemma fetch_loop_abort api_key (l : list Company) s :
  existsb is_aborted (entry_outcomes W l (gets s) (ticks s)) = true ->
  exists e s' evs,
    for_each l (fetch_company W api_key) s = (Raise e, s')
    /\ trace s' = trace s ++ evs
    /\ List.filter (is_log_at ERROR) evs = [].
Proof.
  revert s. induction l as [|c l IH]; intros s; simpl; [done|].
  unfold bind. rewrite fetch_company_run.
  destruct (entry_outcome_of W (c_ticker c) (http W (gets s) (c_ticker c))
              (ticks s)) as [qs|w|qs e]; simpl; intros Hl.
  - destruct (IH (fetched [EvGet (c_ticker c) api_key;
                           EvLog INFO
                             (MsgFetched
                                (count_ticker (c_ticker c) (data s ++ qs))
                                (c_ticker c))] qs s) Hl)
      as (e & s' & evs & -> & T & Er).
    exists e, s', (EvGet (c_ticker c) api_key ::
                   EvLog INFO (MsgFetched
                                 (count_ticker (c_ticker c) (data s ++ qs))
                                 (c_ticker c)) :: evs).
    split; [done|]. simpl in *. by rewrite T, <- !app_assoc.
  - rewrite Nat.add_0_r in Hl.
    destruct (IH (fetched [EvGet (c_ticker c) api_key; EvLog WARNING w] [] s))
      as (e & s' & evs & -> & T & Er).
    { simpl. by rewrite Nat.add_0_r. }
    exists e, s', (EvGet (c_ticker c) api_key :: EvLog WARNING w :: evs).
    split; [done|]. simpl in *. by rewrite T, <- !app_assoc.
  - by exists e, (fetched [EvGet (c_ticker c) api_key] qs s),
        [EvGet (c_ticker c) api_key].
Qed.

(** C5, amended. A non-200 answer, or a 200 answer whose JSON object
    lacks the time-series field, is a failure that raises nothing and
    contributes no record.  [fetch_stock_prices] never raises.  When no
    entry raises an exception, every failure stays local: the records
    are those of the entries that succeeded, one warning is logged per
    failed entry, and no error is logged.  When an entry raises, the
    exception is caught by the handler around the loop, which logs
    exactly one error. *)
Theorem failures_local_unless_exception (self : Pipeline) (s : State) :
  let os := entry_outcomes W (take 2 (companies self)) (gets s) (ticks s) in
  let rs := fetch_stock_prices W self s in
  (forall ticker answer tick,
     is_non_200 answer || lacks_series answer = true ->
     let o := entry_outcome_of W ticker answer tick in
     is_failure o = true /\ is_aborted o = false /\ quotes_of o = [])
  /\ (exists df, fst rs = Ok df)
  /\ (if existsb is_aborted os
      then length (List.filter (is_log_at ERROR) (new_events s (snd rs)))
           = 1%nat
      else failures_stay_local W self s
           /\ List.filter (is_log_at ERROR) (new_events s (snd rs)) = []).
Proof.
  cbn zeta. split.
  { intros ticker answer tick [H|H]%orb_prop.
    - by destruct (non_200_skipped ticker answer tick H) as [sc ->].
    - by destruct (missing_series_skipped ticker answer tick H) as [n ->]. }
  assert (exists df, fst (fetch_stock_prices W self s) = Ok df) as Hok.
  { destruct (fetch_stock_prices_total self s) as (df & s' & ->).
    by exists df. }
  split; [done|].
  unfold failures_stay_local. cbn zeta.
  rewrite fetch_stock_prices_run. cbn zeta.
  set (s1 := set_data [] (emit (EvLog INFO MsgFetching) s)).
  change (gets s) with (gets s1). change (ticks s) with (ticks s1).
  destruct (existsb is_aborted
              (entry_outcomes W (take 2 (companies self)) (gets s1) (ticks s1)))
    eqn:Hab.
  - destruct (fetch_loop_abort "demo" _ s1 Hab) as (e & s' & evs & -> & T & Er).
    cbn [fst snd].
    rewrite (new_events_app s _ (EvLog INFO MsgFetching :: evs
                                  ++ [EvLog ERROR (MsgFetchError e)])).
    + simpl. by rewrite List.filter_app, Er.
    + simpl. rewrite T. simpl. by rewrite <- !app_assoc.
  - destruct (fetch_loop_no_abort "demo" _ s1 Hab)
      as (s' & evs & -> & D & T & Wn & Er).
    cbn [fst snd].
    rewrite (new_events_app s s' (EvLog INFO MsgFetching :: evs)).
    + simpl. rewrite Er, Wn, D. simpl. split; [|done].
      split; [by eexists|]. done.
    + rewrite T. simpl. by rewrite <- !app_assoc.
Qed.

(** *** A successful answer *)

Lemma daily_quote_well_formed ticker item now :
  well_formed_entry item = true ->
  exists q, daily_quote ticker item now = Ok q.
Proof.
  unfold well_formed_entry, daily_quote.
  destruct (float_field (snd item) "1. open"); [|done].
  destruct (float_field (snd item) "4. close"); [|done].
  destruct (float_field (snd item) "2. high"); [|done].
  destruct (float_field (snd item) "3. low"); [|done].
  destruct (int_field (snd item) "6. volume"); [|done].
  intros _. by eexists.
Qed.

Lemma daily_quote_fields ticker item now q :
  daily_quote ticker item now = Ok q ->
  q_ticker q = ticker /\ q_date q = fst item /\ q_ingested_at q = now.
Proof.
  unfold daily_quote.
  destruct (float_field (snd item) "1. open"); [|done].
  destruct (float_field (snd item) "4. close"); [|done].
  destruct (float_field (snd item) "2. high"); [|done].
  destruct (float_field (snd item) "3. low"); [|done].
  destruct (int_field (snd item) "6. volume"); [|done].
  by intros [= <-].
Qed.

(** Well-formed entries are all converted, in order, each at the next
    clock reading. *)
Lemma daily_quotes_all ticker (items : list (string * json)) (tick : nat) :
  forallb well_formed_entry items = true ->
  snd (daily_quotes W ticker items tick) = None
  /\ length (fst (daily_quotes W ticker items tick)) = length items
  /\ forall j q,
       fst (daily_quotes W ticker items tick) !! j = Some q ->
       exists item,
         items !! j = Some item
         /\ daily_quote ticker item (clock W (tick + j)) = Ok q.
Proof.
  revert tick. induction items as [|item items IH]; intros tick; simpl.
  - intros _. split; [done|]. split; [done|]. intros j q. by destruct j.
  - intros [Hi Hrest]%andb_prop.
    destruct (daily_quote_well_formed ticker item (clock W tick) Hi)
      as [q0 Hq0].
    rewrite Hq0. destruct (IH (S tick) Hrest) as (Hs & Hl & Hj).
    destruct (daily_quotes W ticker items (S tick)) as [qs r]; simpl in *.
    split; [done|]. split; [by rewrite Hl|].
    intros [|j] q; simpl.
    + intros [= <-]. exists item. by rewrite Nat.add_0_r.
    + intros Hq. destruct (Hj j q Hq) as (it & Hit & Hd).
      exists it. split; [done|].
      by replace (tick + S j)%nat with (S tick + j)%nat by lia.
Qed.

Lemma newest_first_app (l1 l2 : list string) :
  newest_first (l1 ++ l2) = true ->
  forall a b, a ∈ l1 -> b ∈ l2 -> date_leb b a = true.
Proof.
  induction l1 as [|x l1 IH]; simpl; intros H a b Ha Hb.
  - by apply elem_of_nil in Ha.
  - apply andb_prop in H as [Hx Hrest].
    apply elem_of_cons in Ha as [->|Ha]; [|by eapply IH].
    rewrite forallb_forall in Hx. apply Hx.
    apply list_elem_of_In, elem_of_app. by right.
Qed.

Lemma series_outcome ticker answer tick items :
  series_of answer = Some items ->
  entry_outcome_of W ticker answer tick
  = match daily_quotes W ticker (take 30 items) tick with
    | (qs, None) => Fetched qs
    | (qs, Some e) => Aborted qs e
    end.
Proof.
  destruct answer as [e|status_code [[| | | | | |kvs]|]]; simpl; try done.
  destruct (status_code =? 200)%Z; [|done].
  destruct (assoc "Time Series (Daily)" kvs) as [[| | | | | |its]|] eqn:Hk;
    try done.
  intros [= ->]. done.
Qed.

(** C7, amended. For a successful answer (status 200, a time-series
    object, the first 30 entries well formed), the entry's iteration
    maps the first 30 daily entries of the payload, in payload order and
    at most 30 of them, into quote records; each record carries the
    entry's ticker and date and is stamped with a clock reading of its
    own, taken when it is built.  When the payload lists the days most
    recent first, the entries that are mapped are the most recent ones. *)
Theorem maps_first_30_in_payload_order
    (api_key : string) (company : Company) (s : State)
    (items : list (string * json)) :
  series_of (http W (gets s) (c_ticker company)) = Some items ->
  forallb well_formed_entry (take 30 items) = true ->
  let rs := fetch_company W api_key company s in
  exists qs,
    fst rs = Ok tt
    /\ data (snd rs) = data s ++ qs
    /\ length qs = length (take 30 items)
    /\ (length qs <= 30)%nat
    /\ (forall j q,
          qs !! j = Some q ->
          exists item,
            take 30 items !! j = Some item
            /\ daily_quote (c_ticker company) item (clock W (ticks s + j))
               = Ok q
            /\ q_ticker q = c_ticker company
            /\ q_date q = fst item
            /\ q_ingested_at q = clock W (ticks s + j))
    /\ (newest_first (map fst items) = true ->
        forall q d,
          q ∈ qs -> d ∈ map fst (drop 30 items) ->
          date_leb d (q_date q) = true).
Proof.
  intros Hser Hwf. cbn zeta.
  rewrite fetch_company_run, (series_outcome _ _ _ items Hser).
  destruct (daily_quotes_all (c_ticker company) (take 30 items) (ticks s) Hwf)
    as (Hs & Hl & Hj).
  destruct (daily_quotes W (c_ticker company) (take 30 items) (ticks s))
    as [qs r]; simpl in Hs, Hl, Hj. subst r.
  exists qs. cbn [fst snd data fetched].
  split; [done|]. split; [done|]. split; [done|].
  split; [rewrite Hl, length_take; lia|].
  assert (forall j q, qs !! j = Some q ->
            exists item, take 30 items !! j = Some item
              /\ daily_quote (c_ticker company) item (clock W (ticks s + j))
                 = Ok q
              /\ q_ticker q = c_ticker company
              /\ q_date q = fst item
              /\ q_ingested_at q = clock W (ticks s + j)) as Hall.
  { intros j q Hq. destruct (Hj j q Hq) as (item & Hit & Hd).
    exists item. split; [done|]. split; [done|].
    by apply daily_quote_fields. }
  split; [done|].
  intros Hnf q d [j Hq]%list_elem_of_lookup Hd.
  destruct (Hall j q Hq) as (item & Hit & _ & _ & -> & _).
  rewrite <- (take_drop 30 items), map_app in Hnf.
  apply (newest_first_app _ _ Hnf); [|done].
  apply list_elem_of_fmap. exists item. split; [done|].
  by eapply list_elem_of_lookup_2.
Qed.

(** ** Further properties *)

(** *** The loop, in full *)

(** The loop reaches the entries up to the first that raises; it issues
    one request per entry reached, keeps the records of each, and reads
    the clock once per record. *)
Lemma fetch_loop_run api_key (l : list Company) s :
  let os := entry_outcomes W l (gets s) (ticks s) in
  let rs := for_each l (fetch_company W api_key) s in
  let qs := concat (map kept (take (reached os) os)) in
  exists evs,
    trace (snd rs) = trace s ++ evs
    /\ forallb is_fetch_event evs = true
    /\ requested evs = map c_ticker (take (reached os) l)
    /\ data (snd rs) = data s ++ qs
    /\ ticks (snd rs) = (ticks s + length qs)%nat
    /\ gets (snd rs) = (gets s + reached os)%nat.
Proof.
  revert s. induction l as [|c l IH]; intros s; cbn zeta.
  - exists []. simpl. by rewrite !app_nil_r, !Nat.add_0_r.
  - cbn [for_each entry_outcomes]. unfold bind. rewrite fetch_company_run.
    destruct (entry_outcome_of W (c_ticker c) (http W (gets s) (c_ticker c))
                (ticks s)) as [qs|w|qs e] eqn:Ho; cbn [quotes_of].
    + destruct (IH (fetched [EvGet (c_ticker c) api_key;
                             EvLog INFO
                               (MsgFetched
                                  (count_ticker (c_ticker c) (data s ++ qs))
                                  (c_ticker c))] qs s))
        as (evs & T & F & R & D & Tk & G).
      cbn zeta in *. cbn [gets ticks fetched] in *.
      exists (EvGet (c_ticker c) api_key ::
              EvLog INFO (MsgFetched
                            (count_ticker (c_ticker c) (data s ++ qs))
                            (c_ticker c)) :: evs).
      rewrite T, D, Tk, G. simpl.
      rewrite R, F, <- !app_assoc, length_app. simpl.
      repeat split; try done; lia.
    + rewrite Nat.add_0_r.
      destruct (IH (fetched [EvGet (c_ticker c) api_key; EvLog WARNING w] [] s))
        as (evs & T & F & R & D & Tk & G).
      cbn zeta in *. cbn [gets ticks fetched length] in *.
      rewrite Nat.add_0_r in *.
      exists (EvGet (c_ticker c) api_key :: EvLog WARNING w :: evs).
      rewrite T, D, Tk, G. simpl.
      rewrite R, F, <- !app_assoc, ?app_nil_r. simpl.
      repeat split; try done; lia.
    + exists [EvGet (c_ticker c) api_key]. simpl.
      rewrite app_nil_r. repeat split; try done; try lia.
Qed.

Lemma daily_quotes_prefix ticker (items : list (string * json)) (tick : nat) :
  (length (fst (daily_quotes W ticker items tick)) <= length items)%nat
  /\ forall j q,
       fst (daily_quotes W ticker items tick) !! j = Some q ->
       q_ticker q = ticker /\ q_ingested_at q = clock W (tick + j).
Proof.
  revert tick. induction items as [|item items IH]; intros tick; simpl.
  - split; [done|]. intros j q. by destruct j.
  - destruct (daily_quote ticker item (clock W tick)) as [q0|e] eqn:Hq0; simpl.
    + destruct (IH (S tick)) as [Hl Hj].
      destruct (daily_quotes W ticker items (S tick)) as [qs r]; simpl in *.
      split; [lia|]. intros [|j] q; simpl.
      * intros [= <-]. rewrite Nat.add_0_r.
        by destruct (daily_quote_fields _ _ _ _ Hq0) as (? & _ & ?).
      * intros Hq. destruct (Hj j q Hq) as [? ?]. split; [done|].
        by replace (tick + S j)%nat with (S tick + j)%nat by lia.
    + split; [lia|]. intros j q. by destruct j.
Qed.

(** What one entry leaves in [data]: at most 30 records, all with the
    entry's ticker, the j-th stamped with the j-th clock reading. *)
Lemma kept_of_entry ticker answer tick :
  let o := entry_outcome_of W ticker answer tick in
  (length (kept o) <= 30)%nat
  /\ forall j q,
       kept o !! j = Some q ->
       q_ticker q = ticker /\ q_ingested_at q = clock W (tick + j).
Proof.
  assert (forall A (j : nat) (q : A), @nil A !! j = Some q -> False) as Hnil
    by (intros A j q; by destruct j).
  cbn zeta. unfold entry_outcome_of.
  destruct answer as [e|status_code body];
    [simpl; split; [lia|intros j q H; by destruct (Hnil _ _ _ H)]|].
  destruct (status_code =? 200)%Z;
    [|simpl; split; [lia|intros j q H; by destruct (Hnil _ _ _ H)]].
  destruct body as [result|];
    [|simpl; split; [lia|intros j q H; by destruct (Hnil _ _ _ H)]].
  destruct (py_contains "Time Series (Daily)" result) as [[|]|e];
    [| |simpl; split; [lia|intros j q H; by destruct (Hnil _ _ _ H)]].
  - destruct (py_getitem result "Time Series (Daily)") as [series|e];
      [|simpl; split; [lia|intros j q H; by destruct (Hnil _ _ _ H)]].
    destruct (py_items series) as [items|e];
      [|simpl; split; [lia|intros j q H; by destruct (Hnil _ _ _ H)]].
    destruct (daily_quotes_prefix ticker (take 30 items) tick) as [Hl Hj].
    rewrite length_take in Hl.
    destruct (daily_quotes W ticker (take 30 items) tick) as [qs [e|]];
      cbn [fst snd kept] in *; (split; [lia|done]).
  - destruct (py_get result "Note" (JStr "Unknown error")) as [note|e];
      simpl; split; try lia; intros j q H; by destruct (Hnil _ _ _ H).
Qed.

Lemma kept_outcomes_spec (l : list Company) (g tick : nat) :
  let os := entry_outcomes W l g tick in
  let qs := concat (map kept (take (reached os) os)) in
  (length qs <= 30 * length l)%nat
  /\ forall j q,
       qs !! j = Some q ->
       q_ingested_at q = clock W (tick + j)
       /\ q_ticker q ∈ map c_ticker l.
Proof.
  revert g tick. induction l as [|c l IH]; intros g tick; cbn zeta.
  - simpl. split; [lia|]. intros j q. by destruct j.
  - cbn [entry_outcomes reached].
    destruct (kept_of_entry (c_ticker c) (http W g (c_ticker c)) tick)
      as [Hl Hj].
    cbn zeta in Hl, Hj.
    set (o := entry_outcome_of W (c_ticker c) (http W g (c_ticker c)) tick)
      in *.
    destruct (is_aborted o) eqn:Hab.
    + simpl. rewrite app_nil_r. split; [lia|].
      intros j q Hq. destruct (Hj j q Hq) as [-> ->].
      split; [done|]. simpl. apply elem_of_cons. by left.
    + assert (quotes_of o = kept o) as Hk by (by destruct o).
      rewrite Hk. simpl.
      destruct (IH (S g) (tick + length (kept o))%nat) as [Hl' Hj'].
      cbn zeta in Hl', Hj'. rewrite length_app. split; [lia|].
      intros j q [Hq|[Hge Hq]]%lookup_app_Some.
      * destruct (Hj j q Hq) as [-> ->].
        split; [done|]. apply elem_of_cons. by left.
      * destruct (Hj' _ q Hq) as [-> Hin]. split.
        -- f_equal. lia.
        -- apply elem_of_cons. by right.
Qed.

Lemma reached_le (os : list entry_outcome) :
  (reached os <= length os)%nat
  /\ (existsb is_aborted os = false -> reached os = length os).
Proof.
  induction os as [|o os [IH1 IH2]]; simpl; [done|].
  destruct (is_aborted o); simpl; [split; [lia|done]|].
  split; [lia|]. intros H. by rewrite IH2.
Qed.

Lemma length_entry_outcomes (l : list Company) (g tick : nat) :
  length (entry_outcomes W l g tick) = length l.
Proof.
  revert g tick. induction l as [|c l IH]; intros g tick; simpl; [done|].
  by rewrite IH.
Qed.

(** [fetch_stock_prices], in full: its frame, its records, the clock
    readings and requests it uses, and its events. *)
Lemma fetch_stock_prices_full self s :
  let l := take 2 (companies self) in
  let os := entry_outcomes W l (gets s) (ticks s) in
  let qs := concat (map kept (take (reached os) os)) in
  let rs := fetch_stock_prices W self s in
  fst rs = Ok (match qs with
               | [] => empty_frame
               | _ => quotes_frame qs
               end)
  /\ data (snd rs) = qs
  /\ ticks (snd rs) = (ticks s + length qs)%nat
  /\ gets (snd rs) = (gets s + reached os)%nat
  /\ exists evs,
       trace (snd rs) = trace s ++ evs
       /\ forallb is_fetch_event evs = true
       /\ requested evs = map c_ticker (take (reached os) l).
Proof.
  cbn zeta. rewrite fetch_stock_prices_run. cbn zeta.
  set (s1 := set_data [] (emit (EvLog INFO MsgFetching) s)).
  destruct (fetch_loop_run "demo" (take 2 (companies self)) s1)
    as (evs & T & F & R & D & Tk & G).
  cbn zeta in *. change (gets s1) with (gets s) in *.
  change (ticks s1) with (ticks s) in *. change (data s1) with (@nil QuoteRecord) in D.
  change (trace s1) with (trace s ++ [EvLog INFO MsgFetching]) in T.
  simpl in D.
  destruct (for_each (take 2 (companies self)) (fetch_company W "demo") s1)
    as [[[]|e] s2]; cbn [fst snd] in *.
  - rewrite D. split; [done|]. split; [done|]. split; [done|]. split; [done|].
    exists (EvLog INFO MsgFetching :: evs). rewrite T, <- app_assoc.
    split; [done|]. simpl. by rewrite F.
  - cbn [data emit ticks gets trace]. rewrite D.
    split; [done|]. split; [done|]. split; [done|]. split; [done|].
    exists (EvLog INFO MsgFetching :: evs ++ [EvLog ERROR (MsgFetchError e)]).
    rewrite T, <- !app_assoc. split; [done|]. simpl.
    rewrite forallb_app, requested_app, F, R. simpl. by rewrite app_nil_r.
Qed.

(** X1. [fetch_stock_prices] issues one request per entry, in catalog
    order, up to and including the first of the first two entries whose
    processing raises, and none after it; when none raises, it issues
    exactly one request for each of the first two entries (for each entry
    of a shorter catalog). *)
Theorem fetch_stops_at_first_exception (self : Pipeline) (s : State) :
  let l := take 2 (companies self) in
  let os := entry_outcomes W l (gets s) (ticks s) in
  let rs := fetch_stock_prices W self s in
  requested (new_events s (snd rs)) = map c_ticker (take (reached os) l)
  /\ gets (snd rs) = (gets s + reached os)%nat
  /\ (if existsb is_aborted os
      then (reached os <= length l)%nat
      else requested (new_events s (snd rs)) = map c_ticker l).
Proof.
  cbn zeta.
  destruct (fetch_stock_prices_full self s)
    as (_ & _ & _ & G & evs & T & _ & R).
  cbn zeta in *. rewrite (new_events_app _ _ _ T), R, G.
  split; [done|]. split; [done|].
  destruct (reached_le (entry_outcomes W (take 2 (companies self)) (gets s)
                          (ticks s))) as [Hle Heq].
  rewrite length_entry_outcomes in Hle, Heq.
  destruct (existsb is_aborted _); [done|].
  rewrite (Heq eq_refl). by rewrite firstn_all.
Qed.

(** X2. The records that [fetch_stock_prices] returns are those of the
    entries it reached, in order: all the records of an entry that
    succeeded, none for an entry that was skipped with a warning, and,
    for the entry that raised, the records appended before the exception.
    The frame holds one row per record. *)
Theorem fetch_keeps_records_before_exception
    (self : Pipeline) (s : State) :
  let os := entry_outcomes W (take 2 (companies self)) (gets s) (ticks s) in
  let qs := concat (map kept (take (reached os) os)) in
  let rs := fetch_stock_prices W self s in
  data (snd rs) = qs
  /\ exists df, fst rs = Ok df /\ rows df = map quote_row qs.
Proof.
  cbn zeta.
  destruct (fetch_stock_prices_full self s) as (Hr & D & _).
  cbn zeta in *. split; [done|]. rewrite Hr.
  eexists. split; [done|]. by destruct (concat _).
Qed.

(** X3. The frame that [fetch_stock_prices] returns has at most 60 rows,
    30 per entry queried; it is empty ([df.empty]) exactly when it has no
    row, and otherwise has the eight quote columns. *)
Theorem fetch_frame_bounded (self : Pipeline) (s : State) :
  exists df,
    fst (fetch_stock_prices W self s) = Ok df
    /\ (length (rows df) <= 30 * length (take 2 (companies self)))%nat
    /\ (length (rows df) <= 60)%nat
    /\ df_empty df = (length (rows df) =? 0)%nat
    /\ columns df = (if df_empty df then [] else quote_columns).
Proof.
  destruct (fetch_stock_prices_full self s) as (Hr & _).
  destruct (kept_outcomes_spec (take 2 (companies self)) (gets s) (ticks s))
    as [Hl _].
  cbn zeta in *. rewrite Hr. eexists. split; [done|].
  assert (length (take 2 (companies self)) <= 2)%nat
    by (rewrite length_take; lia).
  destruct (concat _) as [|q qs]; simpl in *.
  - repeat split; lia.
  - rewrite length_map. repeat split; lia.
Qed.

(** X4. Every record that [fetch_stock_prices] returns carries the
    ticker of one of the first two catalog entries, and the j-th record
    is stamped with the j-th clock reading taken by the fetch: the fetch
    reads the clock exactly once per record. *)
Theorem fetch_stamps_and_tickers (self : Pipeline) (s : State) :
  let rs := fetch_stock_prices W self s in
  ticks (snd rs) = (ticks s + length (data (snd rs)))%nat
  /\ forall j q,
       data (snd rs) !! j = Some q ->
       q_ingested_at q = clock W (ticks s + j)
       /\ q_ticker q ∈ map c_ticker (take 2 (companies self)).
Proof.
  cbn zeta.
  destruct (fetch_stock_prices_full self s) as (_ & D & Tk & _).
  destruct (kept_outcomes_spec (take 2 (companies self)) (gets s) (ticks s))
    as [_ Hj].
  cbn zeta in *. rewrite D. split; [done|]. exact Hj.
Qed.

(** X5. [fetch_stock_prices] does not touch the warehouse: the tables and
    the number of writes are as before, and all it records are log lines
    and requests (no connect, no write, no close). *)
Theorem fetch_leaves_warehouse_alone (self : Pipeline) (s : State) :
  let rs := fetch_stock_prices W self s in
  tables (snd rs) = tables s
  /\ writes (snd rs) = writes s
  /\ forallb is_fetch_event (new_events s (snd rs)) = true.
Proof.
  cbn zeta.
  destruct (fetch_stock_prices_full self s)
    as (_ & _ & _ & _ & evs & T & F & _).
  cbn zeta in *. rewrite (new_events_app _ _ _ T).
  split; [|split; [|done]].
  - apply (stable_fetch_stock_prices tables); done.
  - apply (stable_fetch_stock_prices writes); done.
Qed.

(** *** The course of a run *)

Lemma filter_refine (P Q : event -> bool) (evs : list event) :
  (forall e, P e = true -> Q e = true) ->
  List.filter P evs = List.filter P (List.filter Q evs).
Proof.
  intros H. induction evs as [|e evs IH]; [done|]. simpl.
  destruct (P e) eqn:HP.
  - rewrite (H e HP). simpl. by rewrite HP, IH.
  - destruct (Q e); simpl; by rewrite ?HP, IH.
Qed.

Lemma validate_log_no_milestone df table_name :
  List.filter is_milestone (validate_log df table_name) = [].
Proof.
  unfold validate_log. destruct (df_empty df); [done|].
  by destruct (0 <? null_total df)%nat.
Qed.

Ltac skeleton_rest :=
  cbn [fst snd trace tables next_write next_tick emit emits set_tables];
  rewrite ?List.filter_app, ?validate_log_no_milestone;
  done.

(** The milestones of the load phase, in order. *)
Lemma validate_and_load_skeleton self companies_df stock_prices_df s conn :
  sf_conn self = Some conn ->
  df_empty companies_df = false ->
  let quotes := if df_empty stock_prices_df
                then mock_prices (clock W (ticks s))
                else stock_prices_df in
  let rs := validate_and_load W self companies_df stock_prices_df s in
  exists evs,
    trace (snd rs) = trace s ++ evs
    /\ List.filter is_milestone evs
       = EvWrite "STG_COMPANIES" companies_df true false ::
         match write_error W (writes s) with
         | Some e => [EvLog ERROR (MsgLoadFailed "stg_companies" e)]
         | None =>
             (if df_empty stock_prices_df
              then [EvLog WARNING MsgUsingMock] else []) ++
             EvWrite "STG_STOCK_PRICES" quotes true false ::
             match write_error W (S (writes s)) with
             | Some e => [EvLog ERROR (MsgLoadFailed "stg_stock_prices" e)]
             | None => [EvLog INFO MsgCompleted]
             end
         end.
Proof.
  intros Hconn Hne quotes rs.
  assert (Hrs : rs = validate_and_load W self companies_df stock_prices_df s)
    by reflexivity.
  clearbody rs. unfold validate_and_load in Hrs.
  unfold bind at 1 in Hrs. rewrite validate_data_run, Hne in Hrs.
  cbn [negb] in Hrs.
  unfold bind at 1 in Hrs. rewrite load_to_snowflake_run, Hconn in Hrs.
  cbn [writes emits] in Hrs.
  destruct (write_error W (writes s)) as [e|].
  { subst rs. eexists. split; [load_trace|]. skeleton_rest. }
  unfold bind at 1 in Hrs. subst quotes.
  destruct (df_empty stock_prices_df) eqn:Hp; cbn [negb] in Hrs.
  - unfold ret at 1 in Hrs. unfold bind at 1 in Hrs.
    unfold bind at 1 in Hrs. unfold log at 1 in Hrs.
    unfold bind at 1 in Hrs. unfold utcnow at 1 in Hrs.
    rewrite load_to_snowflake_run, Hconn in Hrs.
    cbn [writes ticks emit emits next_tick next_write set_tables trace tables]
      in Hrs.
    destruct (write_error W (S (writes s))) as [e|]; subst rs.
    + eexists. split; [load_trace|]. skeleton_rest.
    + eexists. unfold bind, log. split; [load_trace|]. skeleton_rest.
  - unfold bind at 1 in Hrs. rewrite validate_data_run, Hp in Hrs.
    cbn [negb] in Hrs.
    unfold bind at 1 in Hrs. rewrite load_to_snowflake_run, Hconn in Hrs.
    cbn [writes ticks emit emits next_tick next_write set_tables trace tables]
      in Hrs.
    destruct (write_error W (S (writes s))) as [e|]; subst rs.
    + eexists. split; [load_trace|]. skeleton_rest.
    + eexists. unfold bind, log. split; [load_trace|]. skeleton_rest.
Qed.

Lemma no_milestone_filter (evs : list event) :
  forallb (fun e => negb (is_milestone e)) evs = true ->
  List.filter is_milestone evs = [].
Proof.
  induction evs as [|e evs IH]; [done|]. simpl.
  intros [He H]%andb_prop. destruct (is_milestone e); [done|]. by apply IH.
Qed.

(** The extract step records no milestone, leaves the warehouse alone,
    and hands over a quote frame of at most 60 rows that is empty
    exactly when it has no row. *)
Lemma extract_frames self s :
  exists stock_prices_df s1 evs,
    extract W self s
    = (Ok (assign_stamps (companies_frame (companies self))
             (clock W (ticks s)) (clock W (S (ticks s))),
           stock_prices_df), s1)
    /\ trace s1 = trace s ++ evs
    /\ List.filter is_milestone evs = []
    /\ writes s1 = writes s
    /\ tables s1 = tables s
    /\ df_empty stock_prices_df = (length (rows stock_prices_df) =? 0)%nat
    /\ (length (rows stock_prices_df) <= 60)%nat.
Proof.
  pose proof (stable_extract writes
                ltac:(done) ltac:(done) ltac:(done) ltac:(done) self s) as Hw.
  pose proof (stable_extract tables
                ltac:(done) ltac:(done) ltac:(done) ltac:(done) self s) as Ht.
  assert (confined (fun e => negb (is_milestone e)) (extract W self)) as Hc.
  { unfold extract, create_company_dimension, fetch_stock_prices,
      fetch_company, quote_of. confine. }
  destruct (Hc s) as (evs & Htr & Hevs).
  apply no_milestone_filter in Hevs.
  revert Hw Ht Htr.
  unfold extract, create_company_dimension, bind, log, utcnow, ret.
  cbn [ticks emit next_tick].
  match goal with
  | |- context [fetch_stock_prices W self ?s0] =>
      destruct (fetch_stock_prices_full self s0) as (Hr & _);
      destruct (kept_outcomes_spec (take 2 (companies self)) (gets s0)
                  (ticks s0)) as [Hl _];
      cbn zeta in Hr, Hl;
      destruct (fetch_stock_prices W self s0) as [r s1]
  end.
  cbn [fst snd] in *. subst r. intros Hw Ht Htr.
  eexists _, s1, evs. split; [reflexivity|].
  split; [done|]. split; [done|]. split; [done|]. split; [done|].
  assert (length (take 2 (companies self)) <= 2)%nat
    by (rewrite length_take; lia).
  destruct (concat _) as [|q qs]; simpl in *; [split; [done|lia]|].
  rewrite length_map. split; [done|lia].
Qed.

(** The milestones of a run of a pipeline built by [__init__], in order,
    its outcome and the warehouse it leaves. *)
Lemma run_pipeline_skeleton s0 self s0' s :
  init W s0 = (Ok self, s0') ->
  exists stock_prices_df s1,
    let dim := assign_stamps (companies_frame catalog)
                 (clock W (ticks s)) (clock W (S (ticks s))) in
    let quotes := if (length (rows stock_prices_df) =? 0)%nat
                  then mock_prices (clock W (ticks s1))
                  else stock_prices_df in
    let rs := run_pipeline W self s in
    extract W self s = (Ok (dim, stock_prices_df), s1)
    /\ (length (rows stock_prices_df) <= 60)%nat
    /\ List.filter is_milestone (new_events s (snd rs))
       = EvWrite "STG_COMPANIES" dim true false ::
         match write_error W (writes s) with
         | Some e => [EvLog ERROR (MsgLoadFailed "stg_companies" e);
                      EvLog ERROR (MsgPipelineFailed e)]
         | None =>
             (if (length (rows stock_prices_df) =? 0)%nat
              then [EvLog WARNING MsgUsingMock] else []) ++
             EvWrite "STG_STOCK_PRICES" quotes true false ::
             match write_error W (S (writes s)) with
             | Some e => [EvLog ERROR (MsgLoadFailed "stg_stock_prices" e);
                          EvLog ERROR (MsgPipelineFailed e)]
             | None => [EvLog INFO MsgCompleted]
             end
         end.
Proof.
  intros Hinit. destruct (init_inv _ _ _ Hinit) as [Hconn Hcat].
  destruct (extract_frames self s)
    as (p_df & s1 & evs1 & Hex & Htr & Hm & Hw & Ht & Hemp & Hle).
  rewrite Hcat in Hex.
  exists p_df, s1. cbn zeta. split; [done|]. split; [done|].
  rewrite (run_pipeline_run self s tt _ _ s1 Hconn Hex). cbn zeta.
  destruct (validate_and_load_skeleton self
              (assign_stamps (companies_frame catalog)
                 (clock W (ticks s)) (clock W (S (ticks s))))
              p_df s1 tt Hconn eq_refl) as (evs2 & Htr2 & Hsk).
  destruct (validate_and_load_run self
              (assign_stamps (companies_frame catalog)
                 (clock W (ticks s)) (clock W (S (ticks s))))
              p_df s1 tt Hconn eq_refl) as (evs2' & _ & _ & Hcase).
  cbn zeta in Hsk, Hcase. rewrite Hw, Hemp in Hsk. rewrite Hw in Hcase.
  destruct (write_error W (writes s)) as [e|];
    [|destruct (write_error W (S (writes s))) as [e|]];
    destruct Hcase as (Hr & _); rewrite Hr; cbn [fst snd].
  - rewrite (new_events_app s _
               (evs1 ++ evs2 ++ [EvLog ERROR (MsgPipelineFailed e); EvClose])).
    + by rewrite !List.filter_app, Hm, Hsk.
    + cbn [trace emit]. by rewrite Htr2, Htr, <- !app_assoc.
  - rewrite (new_events_app s _
               (evs1 ++ evs2 ++ [EvLog ERROR (MsgPipelineFailed e); EvClose])).
    + rewrite !List.filter_app, Hm, Hsk. simpl.
      by rewrite <- !app_assoc.
    + cbn [trace emit]. by rewrite Htr2, Htr, <- !app_assoc.
  - rewrite (new_events_app s _ (evs1 ++ evs2 ++ [EvClose])).
    + rewrite !List.filter_app, Hm, Hsk. simpl. by rewrite app_nil_r.
    + cbn [trace emit]. by rewrite Htr2, Htr, <- !app_assoc.
Qed.

(** X6. Whatever the two writes do, the lines that tell how a run ended
    are: the completion banner alone when the run returns; and, when a
    load fails, the loader's error line for the table whose write failed
    followed by the runner's error line, both with the exception that
    the run raises.  A failure is thus reported twice, and the banner is
    never logged by a run that raises. *)
Theorem run_reports_how_it_ended
    (s0 : State) (self : Pipeline) (s0' : State) (s : State) :
  init W s0 = (Ok self, s0') ->
  let rs := run_pipeline W self s in
  List.filter is_end_marker (new_events s (snd rs))
  = match write_error W (writes s), write_error W (S (writes s)) with
    | Some e, _ =>
        [EvLog ERROR (MsgLoadFailed "stg_companies" e);
         EvLog ERROR (MsgPipelineFailed e)]
    | None, Some e =>
        [EvLog ERROR (MsgLoadFailed "stg_stock_prices" e);
         EvLog ERROR (MsgPipelineFailed e)]
    | None, None => [EvLog INFO MsgCompleted]
    end.
Proof.
  intros Hinit.
  destruct (run_pipeline_skeleton s0 self s0' s Hinit)
    as (p_df & s1 & _ & _ & Hsk).
  cbn zeta in *.
  rewrite (filter_refine is_end_marker is_milestone), Hsk.
  - destruct (write_error W (writes s)) as [e|]; [done|].
    destruct (length (rows p_df) =? 0)%nat;
      by destruct (write_error W (S (writes s))).
  - intros e. unfold is_end_marker, is_milestone.
    destruct (is_write e), (is_mock_warning e), (is_completed e),
      (is_load_failed e), (is_pipeline_failed e); done.
Qed.

(** X7. When the load of the company dimension does not fail, a run
    issues exactly one write to [STG_STOCK_PRICES]: of the fetched frame
    when it has at least one row, and of the mock frame otherwise; the
    switch to mock data is logged exactly in the second case.  The frame
    written is never empty and has at most 60 rows. *)
Theorem quotes_write_is_fetched_or_mock
    (s0 : State) (self : Pipeline) (s0' : State) (s : State) :
  init W s0 = (Ok self, s0') ->
  write_error W (writes s) = None ->
  exists companies_df stock_prices_df s1,
    extract W self s = (Ok (companies_df, stock_prices_df), s1)
    /\ let evs := new_events s (snd (run_pipeline W self s)) in
       let quotes := if (length (rows stock_prices_df) =? 0)%nat
                     then mock_prices (clock W (ticks s1))
                     else stock_prices_df in
       List.filter (is_write_to "STG_STOCK_PRICES") evs
       = [EvWrite "STG_STOCK_PRICES" quotes true false]
       /\ (1 <= length (rows quotes) <= 60)%nat
       /\ List.filter is_mock_warning evs
          = (if (length (rows stock_prices_df) =? 0)%nat
             then [EvLog WARNING MsgUsingMock] else []).
Proof.
  intros Hinit Hw.
  destruct (run_pipeline_skeleton s0 self s0' s Hinit)
    as (p_df & s1 & Hex & Hle & Hsk).
  cbn zeta in *. rewrite Hw in Hsk.
  eexists _, p_df, s1. split; [exact Hex|].
  rewrite (filter_refine (is_write_to "STG_STOCK_PRICES") is_milestone),
    (filter_refine is_mock_warning is_milestone), Hsk.
  - destruct (length (rows p_df) =? 0)%nat eqn:Hz.
    + split; [by destruct (write_error W (S (writes s)))|].
      split; [simpl; lia|]. by destruct (write_error W (S (writes s))).
    + apply Nat.eqb_neq in Hz.
      split; [by destruct (write_error W (S (writes s)))|].
      split; [lia|]. by destruct (write_error W (S (writes s))).
  - intros e H. unfold is_milestone. by rewrite H, orb_true_r.
  - intros e H. unfold is_milestone, is_write_to, is_write in *.
    by destruct e.
Qed.

(** X8. A run in which both writes succeed returns, appends the 5 rows
    of the company dimension to [STG_COMPANIES] and between 1 and 60
    quote rows to [STG_STOCK_PRICES], after the rows that each table
    held (none for a table that did not exist), and leaves every other
    table as it was. *)
Theorem successful_run_grows_both_tables
    (s0 : State) (self : Pipeline) (s0' : State) (s : State) :
  init W s0 = (Ok self, s0') ->
  write_error W (writes s) = None ->
  write_error W (S (writes s)) = None ->
  let rs := run_pipeline W self s in
  fst rs = Ok tt
  /\ exists dim_rows quote_rows,
       tables (snd rs) !! "STG_COMPANIES"
       = Some (default [] (tables s !! "STG_COMPANIES") ++ dim_rows)
       /\ length dim_rows = 5%nat
       /\ tables (snd rs) !! "STG_STOCK_PRICES"
          = Some (default [] (tables s !! "STG_STOCK_PRICES") ++ quote_rows)
       /\ (1 <= length quote_rows <= 60)%nat
       /\ forall other,
            other <> "STG_COMPANIES" -> other <> "STG_STOCK_PRICES" ->
            tables (snd rs) !! other = tables s !! other.
Proof.
  intros Hinit Hw1 Hw2.
  destruct (run_pipeline_summary s0 self s0' s Hinit)
    as (p_df & s1 & evs & Hex & _ & _ & Hcase).
  destruct (extract_frames self s)
    as (p_df' & s1' & _ & Hex' & _ & _ & _ & _ & Hemp & Hle).
  destruct (init_inv _ _ _ Hinit) as [_ Hcat]. rewrite Hcat in Hex'.
  cbn zeta in *. rewrite Hex in Hex'. injection Hex' as <- <-.
  rewrite Hw1, Hw2 in Hcase. destruct Hcase as (Hr & _ & Htb).
  split; [done|]. rewrite Htb, Hemp. unfold appended.
  eexists _, _. split; [|split; [|split; [|split]]].
  - rewrite lookup_insert_ne by done. by rewrite lookup_insert_eq.
  - done.
  - rewrite lookup_insert_eq. by rewrite lookup_insert_ne.
  - destruct (length (rows p_df) =? 0)%nat eqn:Hz; [simpl; lia|].
    apply Nat.eqb_neq in Hz. lia.
  - intros other H1 H2. by rewrite !lookup_insert_ne.
Qed.

(** X9. Nothing is rolled back: when the dimension load succeeds and the
    quote load fails, the run raises the quote load's exception, and the
    5 dimension rows stay appended to [STG_COMPANIES]; the other tables
    are as they were. *)
Theorem failed_quote_load_keeps_dimension_rows
    (s0 : State) (self : Pipeline) (s0' : State) (s : State) (e : exn) :
  init W s0 = (Ok self, s0') ->
  write_error W (writes s) = None ->
  write_error W (S (writes s)) = Some e ->
  let rs := run_pipeline W self s in
  fst rs = Raise e
  /\ exists dim_rows,
       length dim_rows = 5%nat
       /\ tables (snd rs) !! "STG_COMPANIES"
          = Some (default [] (tables s !! "STG_COMPANIES") ++ dim_rows)
       /\ forall other,
            other <> "STG_COMPANIES" ->
            tables (snd rs) !! other = tables s !! other.
Proof.
  intros Hinit Hw1 Hw2.
  destruct (run_pipeline_summary s0 self s0' s Hinit)
    as (p_df & s1 & evs & _ & _ & _ & Hcase).
  cbn zeta in *. rewrite Hw1, Hw2 in Hcase.
  destruct Hcase as (Hr & _ & Htb).
  split; [done|]. rewrite Htb. unfold appended.
  exists (rows (assign_stamps (companies_frame catalog)
                  (clock W (ticks s)) (clock W (S (ticks s))))).
  split; [done|]. split.
  - by rewrite lookup_insert_eq.
  - intros other H1. by rewrite lookup_insert_ne.
Qed.

(** *** Opening and closing the connection *)

Lemma filter_none (P : event -> bool) (evs : list event) :
  forallb (fun e => negb (P e)) evs = true -> List.filter P evs = [].
Proof.
  induction evs as [|e evs IH]; [done|]. simpl.
  intros [He H]%andb_prop. destruct (P e); [done|]. by apply IH.
Qed.

Lemma init_run s :
  init W s
  = match connection_error W with
    | Some e =>
        (Raise e, emits [EvConnect; EvLog ERROR (MsgConnectionFailed e)] s)
    | None =>
        (Ok {| sf_conn := Some tt; companies := catalog |},
         emits [EvConnect; EvLog INFO MsgConnected] s)
    end.
Proof.
  unfold init, connect_snowflake, try_except, bind, sf_connect, use_schema,
    log, raise, ret, connection_error.
  destruct (connect_error W); [by state_eq|].
  destruct (use_schema_error W); by state_eq.
Qed.

Lemma confined_try_finally (P : event -> bool) {A} (c : M A) (f : M unit) :
  confined P c -> confined P f -> confined P (try_finally c f).
Proof.
  intros Hc Hf s. unfold try_finally.
  destruct (Hc s) as (evs1 & E1 & F1).
  destruct (c s) as [r s1]; simpl in *.
  destruct (Hf s1) as (evs2 & E2 & F2).
  exists (evs1 ++ evs2).
  destruct (f s1) as [[[]|e] s2]; simpl in *;
    rewrite E2, E1, app_assoc, forallb_app, F1, F2; done.
Qed.

(** A run opens no connection. *)
Lemma run_pipeline_no_connect self :
  confined (fun e => negb (is_connect e)) (run_pipeline W self).
Proof.
  unfold run_pipeline. apply confined_try_finally.
  - unfold run_body, validate_and_load, extract, create_company_dimension,
      fetch_stock_prices, fetch_company, quote_of, load_to_snowflake,
      validate_data.
    confine.
  - destruct (sf_conn self); [|apply confined_ret].
    by apply confined_emit.
Qed.

(** X10. When the connection cannot be opened, or the [USE SCHEMA]
    statement fails on the open connection, the program logs the failure
    once, raises that exception out of [__init__], and does nothing
    else: no request, no write, and no [close], so that a connection on
    which [USE SCHEMA] failed is left open. *)
Theorem connection_failure_stops_program (e : exn) (s : State) :
  connection_error W = Some e ->
  let rs := main W s in
  fst rs = Raise e
  /\ new_events s (snd rs) = [EvConnect; EvLog ERROR (MsgConnectionFailed e)]
  /\ gets (snd rs) = gets s
  /\ writes (snd rs) = writes s
  /\ tables (snd rs) = tables s.
Proof.
  intros He. cbn zeta. unfold main, bind. rewrite init_run, He.
  cbn [fst snd]. split; [done|]. split; [|done].
  by apply new_events_app.
Qed.

(** X11. The program opens the connection exactly once, first of all,
    and closes it exactly when [__init__] returned: once, last of all,
    whether the run returns or raises. *)
Theorem program_opens_once_closes_if_built (s : State) :
  let evs := new_events s (snd (main W s)) in
  head evs = Some EvConnect
  /\ length (List.filter is_connect evs) = 1%nat
  /\ match connection_error W with
     | Some _ => List.filter is_close evs = []
     | None => List.filter is_close evs = [EvClose]
               /\ last evs = Some EvClose
     end.
Proof.
  cbn zeta. unfold main, bind.
  pose proof (init_run s) as Hinit. rewrite Hinit.
  destruct (connection_error W) as [e|].
  { cbn [snd].
    by rewrite (new_events_app s _
                  [EvConnect; EvLog ERROR (MsgConnectionFailed e)])
      by done. }
  set (self := {| sf_conn := Some tt; companies := catalog |}) in *.
  set (s1 := emits [EvConnect; EvLog INFO MsgConnected] s) in *.
  destruct (run_pipeline_summary s self s1 s1 Hinit)
    as (p_df & s2 & evs & _ & Htr & Hc & _).
  destruct (run_pipeline_no_connect self s1) as (evs' & Htr' & Hnc).
  cbn zeta in Htr. rewrite Htr in Htr'. apply app_inv_head in Htr'.
  subst evs'.
  rewrite (new_events_app s _
             ([EvConnect; EvLog INFO MsgConnected] ++ evs ++ [EvClose]))
    by (rewrite Htr; subst s1; cbn [trace emits]; by rewrite <- !app_assoc).
  split; [done|].
  split.
  - by rewrite List.filter_app, (filter_none is_connect _ Hnc).
  - rewrite !List.filter_app, (filter_none is_close _ Hc).
    split; [done|]. by rewrite !app_assoc, last_snoc.
Qed.

(** *** Loading again, and the table's name *)

(** X12. The loader does not deduplicate: when the same frame is loaded
    twice and both writes succeed, its rows are in the table twice, after
    the rows that the table held. *)
Theorem load_twice_appends_twice
    (self : Pipeline) (df : DataFrame) (table_name : string) (s : State)
    (conn : unit) :
  sf_conn self = Some conn ->
  write_error W (writes s) = None ->
  write_error W (S (writes s)) = None ->
  let s1 := snd (load_to_snowflake W self df table_name s) in
  let rs := load_to_snowflake W self df table_name s1 in
  fst rs = Ok tt
  /\ writes (snd rs) = S (S (writes s))
  /\ tables (snd rs) !! upper table_name
     = Some (default [] (tables s !! upper table_name)
             ++ rows df ++ rows df).
Proof.
  intros Hconn Hw1 Hw2. cbn zeta.
  rewrite (load_to_snowflake_run self df table_name s), Hconn, Hw1.
  rewrite load_to_snowflake_run, Hconn. cbn [snd writes set_tables next_write emits].
  rewrite Hw2. cbn [fst snd writes tables set_tables next_write emits].
  split; [done|]. split; [done|].
  unfold appended. rewrite !lookup_insert_eq. simpl.
  by rewrite <- app_assoc.
Qed.




(** *** Frames *)

Lemma null_count_zero (df : DataFrame) (j : nat) :
  (forall r c, r ∈ rows df -> r !! j = Some c -> isnull c = false) ->
  null_count df j = 0%nat.
Proof.
  unfold null_count. intros H.
  induction (rows df) as [|r l IH]; [done|]. simpl.
  destruct (r !! j) as [c|] eqn:Hc.
  - rewrite (H r c) by (done || apply elem_of_cons; by left).
    apply IH. intros r' c' Hr'. apply H. apply elem_of_cons. by right.
  - apply IH. intros r' c' Hr'. apply H. apply elem_of_cons. by right.
Qed.

Lemma null_count_le (df : DataFrame) (j : nat) :
  (null_count df j <= length (rows df))%nat.
Proof. unfold null_count. apply List.filter_length_le. Qed.

Lemma sum_imap_zero (f : nat -> string -> string * nat) (l : list string) :
  (forall j col, snd (f j col) = 0%nat) ->
  list_sum (map snd (imap f l)) = 0%nat.
Proof.
  revert f. induction l as [|x l IH]; intros f H; [done|].
  simpl. rewrite H. simpl. apply IH. intros j col. apply H.
Qed.

(** A frame without [None] and [NaN] cells has no null to report. *)
Lemma null_total_zero (df : DataFrame) :
  (forall r c, r ∈ rows df -> c ∈ r -> isnull c = false) ->
  null_total df = 0%nat.
Proof.
  intros H. unfold null_total, null_counts. apply sum_imap_zero.
  intros j col. simpl. apply null_count_zero.
  intros r c Hr Hc. apply (H r c Hr). by eapply list_elem_of_lookup_2.
Qed.

(** X14. In the frame that [fetch_stock_prices] returns, null cells can
    only be in the four price columns (a [NaN] price): the ticker, date,
    volume and ingestion-time columns never count a null, and no column
    counts more nulls than the frame has rows. *)
Theorem fetched_nulls_only_in_prices (self : Pipeline) (s : State) :
  exists df,
    fst (fetch_stock_prices W self s) = Ok df
    /\ forall col n,
         (col, n) ∈ null_counts df ->
         (n <= length (rows df))%nat
         /\ ((0 < n)%nat -> col ∈ price_columns).
Proof.
  destruct (fetch_stock_prices_full self s) as (Hr & _).
  cbn zeta in Hr. rewrite Hr. eexists. split; [done|].
  destruct (concat _) as [|q qs]; [intros col n H; by inversion H|].
  set (df := quotes_frame (q :: qs)).
  assert (forall j, j ∈ [0; 1; 6; 7]%nat -> null_count df j = 0%nat) as Hz.
  { intros j Hj. apply null_count_zero. intros r c Hr' Hc.
    apply list_elem_of_fmap in Hr'. destruct Hr' as (q' & -> & _).
    repeat (apply elem_of_cons in Hj; destruct Hj as [->|Hj];
            [by injection Hc as <-|]).
    by inversion Hj. }
  intros col n H.
  assert (exists j, (j < 8)%nat /\ n = null_count df j
                    /\ quote_columns !! j = Some col) as (j & Hj & -> & Hcol).
  { apply list_elem_of_lookup in H. destruct H as [j H].
    unfold null_counts in H. rewrite list_lookup_imap in H.
    change (columns df) with quote_columns in H.
    destruct (quote_columns !! j) as [col'|] eqn:Hc; [|done].
    injection H as <- <-. exists j. split; [|done].
    apply lookup_lt_Some in Hc. exact Hc. }
  split; [apply null_count_le|].
  intros Hpos.
  do 8 (destruct j as [|j];
        [first [ rewrite Hz in Hpos by (repeat constructor); lia
               | injection Hcol as <-; unfold price_columns;
                 repeat constructor ]|]).
  lia.
Qed.

(** X15. For any catalog, [create_company_dimension] returns a frame
    with one row per company, in catalog order: the company's three
    fields followed by the two timestamps, which are two successive
    clock readings shared by all rows.  The frame has no null cell, and
    is empty exactly when the catalog is. *)
Theorem company_dimension_of_any_catalog (self : Pipeline) (s : State) :
  let rs := create_company_dimension W self s in
  exists df,
    fst rs = Ok df
    /\ ticks (snd rs) = S (S (ticks s))
    /\ rows df
       = map (fun c => company_row c ++ [CTime (clock W (ticks s));
                                         CTime (clock W (S (ticks s)))])
           (companies self)
    /\ null_total df = 0%nat
    /\ df_empty df = (length (companies self) =? 0)%nat.
Proof.
  cbn zeta. unfold create_company_dimension, bind, log, utcnow, ret.
  cbn [fst snd ticks emit next_tick].
  eexists. split; [done|]. split; [done|].
  assert (rows (assign_stamps (companies_frame (companies self))
                  (clock W (ticks s)) (clock W (S (ticks s))))
          = map (fun c => company_row c ++ [CTime (clock W (ticks s));
                                            CTime (clock W (S (ticks s)))])
              (companies self)) as Hrows.
  { unfold assign_stamps, companies_frame. cbn [rows]. by rewrite map_map. }
  split; [exact Hrows|]. split.
  - apply null_total_zero. rewrite Hrows. intros r c Hr Hc.
    apply list_elem_of_fmap in Hr. destruct Hr as (co & -> & _).
    unfold company_row in Hc. simpl in Hc.
    repeat (apply elem_of_cons in Hc; destruct Hc as [->|Hc]; [done|]).
    by inversion Hc.
  - unfold df_empty. rewrite Hrows, length_map.
    by destruct (companies self).
Qed.

End Properties.

(** ** The statements at concrete runs *)

Section AtRuns.

#[local] Existing Instance decimal.

(** The fetch of the exhausted API returns the empty frame. *)
Lemma fetch_never_raises_witness :
  (forall n symbol, is_non_200 (http api_exhausted n symbol) = true)
  /\ fst (fetch_stock_prices api_exhausted pipeline0 fresh) = Ok empty_frame.
Proof.
  split; [done|].
  apply (proj2 (fetch_never_raises api_exhausted pipeline0)). done.
Defined.

(** The dimension write fails: the run raises its error and closes the
    connection once, last. *)
Lemma connection_released_exactly_once_witness :
  init dimension_write_fails fresh
  = (Ok pipeline0, snd (init dimension_write_fails fresh))
  /\ (let rs := run_pipeline dimension_write_fails pipeline0 fresh in
      length (List.filter is_close (new_events fresh (snd rs))) = 1%nat
      /\ last (trace (snd rs)) = Some EvClose
      /\ fst rs = Raise (DatabaseError 2003)).
Proof.
  split; [done|].
  exact (connection_released_exactly_once dimension_write_fails fresh pipeline0
           (snd (init dimension_write_fails fresh)) fresh eq_refl).
Defined.

Lemma company_dimension_always_loaded_witness :
  init api_exhausted fresh = (Ok pipeline0, snd (init api_exhausted fresh))
  /\ List.filter (is_write_to "STG_COMPANIES")
       (new_events fresh (snd (run_pipeline api_exhausted pipeline0 fresh)))
     = [EvWrite "STG_COMPANIES"
          (assign_stamps (companies_frame catalog) (clock0 0) (clock0 1))
          true false].
Proof.
  split; [done|].
  apply (company_dimension_always_loaded api_exhausted fresh pipeline0
           (snd (init api_exhausted fresh)) fresh eq_refl).
Defined.

(** The API is exhausted and the warehouse works: one write of the 4
    mock rows, which are then the rows of the quotes table. *)
Lemma mock_rows_loaded_witness :
  let s1 := snd (extract api_exhausted pipeline0 fresh) in
  let rs := run_pipeline api_exhausted pipeline0 fresh in
  let mock := mock_prices (clock0 2) in
  (init api_exhausted fresh = (Ok pipeline0, snd (init api_exhausted fresh))
   /\ extract api_exhausted pipeline0 fresh
      = (Ok (assign_stamps (companies_frame catalog) (clock0 0) (clock0 1),
             empty_frame), s1)
   /\ rows empty_frame = []
   /\ write_error api_exhausted (writes fresh) = None)
  /\ List.filter (is_write_to "STG_STOCK_PRICES") (new_events fresh (snd rs))
     = [EvWrite "STG_STOCK_PRICES" mock true false]
  /\ length (rows mock) = 4%nat
  /\ fst rs = Ok tt
  /\ tables (snd rs) !! "STG_STOCK_PRICES" = Some (rows mock).
Proof.
  cbn zeta. split; [done|].
  pose proof (mock_rows_loaded_unless_dimension_load_fails api_exhausted
                fresh pipeline0 (snd (init api_exhausted fresh)) fresh
                (assign_stamps (companies_frame catalog) (clock0 0) (clock0 1))
                empty_frame (snd (extract api_exhausted pipeline0 fresh))
                eq_refl eq_refl eq_refl eq_refl) as (H1 & H2 & H3 & H4).
  split; [exact H1|]. split; [exact H2|]. split; [exact H3|]. exact H4.
Defined.

(** C1 as stated fails: the fetch yields nothing and the write of the
    company dimension fails; the run ends before the mock rows are
    written, and the quotes table receives nothing. *)
Lemma mock_rows_not_loaded_when_dimension_write_fails :
  ~ mock_rows_always_loaded dimension_write_fails pipeline0 fresh.
Proof.
  intros H.
  destruct (H (assign_stamps (companies_frame catalog) (clock0 0) (clock0 1))
              empty_frame
              (snd (extract dimension_write_fails pipeline0 fresh))
              eq_refl eq_refl) as [now Hnow].
  change (List.filter (is_write_to "STG_STOCK_PRICES")
            (new_events fresh
               (snd (run_pipeline dimension_write_fails pipeline0 fresh))))
    with (@nil event) in Hnow.
  discriminate Hnow.
Qed.

(** AAPL's two days, newest first, and a rate-limited JPM: no entry
    raises, so both failures and successes stay local. *)
Lemma failures_local_witness :
  (is_non_200 (http two_days 1 "JPM") || lacks_series (http two_days 1 "JPM")
   = true)
  /\ quotes_of (entry_outcome_of two_days "JPM" (http two_days 1 "JPM") 2) = []
  /\ failures_stay_local two_days pipeline0 fresh.
Proof.
  destruct (failures_local_unless_exception two_days pipeline0 fresh)
    as (Hsoft & _ & Hloop).
  split; [done|].
  split; [exact (proj2 (proj2 (Hsoft "JPM" (http two_days 1 "JPM") 2%nat
                                 eq_refl)))|].
  exact (proj1 Hloop).
Defined.

(** C5 as stated fails: AAPL's second daily entry has no volume.  The
    exception ends the loop: AAPL has contributed one record, JPM is
    never asked for its own, and an error is logged, no warning. *)
Lemma failure_not_local_on_exception :
  ~ failures_stay_local truncated_entry pipeline0 fresh.
Proof.
  intros (_ & H & _). apply (f_equal (map q_ticker)) in H.
  change (["AAPL"] = ["JPM"]) in H. discriminate H.
Qed.

(** AAPL's two days are mapped in payload order, each with its own
    clock reading. *)
Lemma maps_first_30_witness :
  let items :=
    [("2025-01-10", daily "150.0" "152.0" "149.5" "151.0" "50000000");
     ("2025-01-09", daily "148.5" "150.0" "148.0" "149.0" "45000000")] in
  (series_of (http two_days (gets fresh) (c_ticker apple)) = Some items
   /\ forallb well_formed_entry (take 30 items) = true
   /\ newest_first (map fst items) = true)
  /\ exists qs,
       fst (fetch_company two_days "demo" apple fresh) = Ok tt
       /\ data (snd (fetch_company two_days "demo" apple fresh))
          = data fresh ++ qs
       /\ length qs = 2%nat
       /\ forall q d,
            q ∈ qs -> d ∈ map fst (drop 30 items) ->
            date_leb d (q_date q) = true.
Proof.
  cbn zeta. split; [done|].
  destruct (maps_first_30_in_payload_order two_days "demo" apple fresh
              [("2025-01-10", daily "150.0" "152.0" "149.5" "151.0" "50000000");
               ("2025-01-09", daily "148.5" "150.0" "148.0" "149.0" "45000000")]
              eq_refl eq_refl) as (qs & Hok & Hd & Hlen & _ & _ & Hnf).
  exists qs. split; [exact Hok|]. split; [exact Hd|]. split; [exact Hlen|].
  exact (Hnf eq_refl).
Defined.

(** C7 as stated fails: the payload lists January oldest first.  The
    fetch maps the first 30 days: the 1st is mapped and the 31st, the
    most recent day, is not. *)
Lemma oldest_first_maps_oldest_30 :
  ~ maps_most_recent_30 oldest_first "demo" apple fresh.
Proof.
  intros H.
  destruct (H january eq_refl eq_refl) as (_ & _ & Hrecent).
  cbn zeta in Hrecent.
  set (mapped := drop (length (data fresh))
                   (data (snd (fetch_company oldest_first "demo" apple fresh))))
    in Hrecent.
  assert ((q_date <$> mapped) !! 0%nat = Some "2025-01-01") as Hd0
    by (by vm_compute).
  rewrite list_lookup_fmap in Hd0.
  destruct (mapped !! 0%nat) as [q|] eqn:Hq; [|discriminate Hd0].
  injection Hd0 as Hdate.
  specialize (Hrecent q "2025-01-31").
  rewrite Hdate in Hrecent.
  assert (date_leb "2025-01-31" "2025-01-01" = true) as Habs.
  { apply Hrecent.
    - by eapply list_elem_of_lookup_2.
    - apply (list_elem_of_lookup_2 _ 30%nat). reflexivity.
    - apply (bool_decide_unpack _). by vm_compute. }
  vm_compute in Habs. discriminate Habs.
Qed.

(** The first load of the dimension creates [STG_COMPANIES] and leaves
    the other tables alone. *)
Lemma load_uppercases_and_appends_witness :
  let dim := assign_stamps (companies_frame catalog) (clock0 0) (clock0 1) in
  let rs := load_to_snowflake api_exhausted pipeline0 dim "stg_companies"
              fresh in
  "STG_STOCK_PRICES" <> upper "stg_companies"
  /\ tables (snd rs) !! "STG_COMPANIES" = Some (rows dim)
  /\ tables (snd rs) !! "STG_STOCK_PRICES" = None.
Proof.
  cbn zeta.
  destruct (load_uppercases_and_appends api_exhausted pipeline0
              (assign_stamps (companies_frame catalog) (clock0 0) (clock0 1))
              "stg_companies" fresh) as (_ & Htb & Hother).
  split; [done|]. split.
  - rewrite Htb. exact (lookup_insert_eq _ "STG_COMPANIES" _).
  - apply (Hother "STG_STOCK_PRICES"). done.
Defined.

(** The dimension write fails: the loader and the runner each log the
    error, and the banner is not logged. *)
Lemma run_reports_how_it_ended_witness :
  init dimension_write_fails fresh
  = (Ok pipeline0, snd (init dimension_write_fails fresh))
  /\ List.filter is_end_marker
       (new_events fresh
          (snd (run_pipeline dimension_write_fails pipeline0 fresh)))
     = [EvLog ERROR (MsgLoadFailed "stg_companies" (DatabaseError 2003));
        EvLog ERROR (MsgPipelineFailed (DatabaseError 2003))].
Proof.
  split; [done|].
  exact (run_reports_how_it_ended dimension_write_fails fresh pipeline0
           (snd (init dimension_write_fails fresh)) fresh eq_refl).
Defined.

(** AAPL's two days are fetched: the quotes written are not empty. *)
Lemma quotes_write_is_fetched_or_mock_witness :
  (init two_days fresh = (Ok pipeline0, snd (init two_days fresh))
   /\ write_error two_days (writes fresh) = None)
  /\ exists companies_df stock_prices_df s1,
       extract two_days pipeline0 fresh
       = (Ok (companies_df, stock_prices_df), s1)
       /\ (1 <= length (rows (if (length (rows stock_prices_df) =? 0)%nat
                              then mock_prices (clock two_days (ticks s1))
                              else stock_prices_df)) <= 60)%nat.
Proof.
  split; [done|].
  destruct (quotes_write_is_fetched_or_mock two_days fresh pipeline0
              (snd (init two_days fresh)) fresh eq_refl eq_refl)
    as (c_df & p_df & s1 & Hex & _ & Hlen & _).
  exists c_df, p_df, s1. split; [exact Hex|exact Hlen].
Defined.

(** The API is exhausted and the warehouse works: the run returns. *)
Lemma successful_run_grows_both_tables_witness :
  (init api_exhausted fresh = (Ok pipeline0, snd (init api_exhausted fresh))
   /\ write_error api_exhausted (writes fresh) = None
   /\ write_error api_exhausted (S (writes fresh)) = None)
  /\ fst (run_pipeline api_exhausted pipeline0 fresh) = Ok tt.
Proof.
  split; [done|].
  exact (proj1 (successful_run_grows_both_tables api_exhausted fresh pipeline0
                  (snd (init api_exhausted fresh)) fresh
                  eq_refl eq_refl eq_refl)).
Defined.

(** The quote write fails after the dimension was loaded. *)
Lemma failed_quote_load_keeps_dimension_rows_witness :
  (init quotes_write_fails fresh
   = (Ok pipeline0, snd (init quotes_write_fails fresh))
   /\ write_error quotes_write_fails (writes fresh) = None
   /\ write_error quotes_write_fails (S (writes fresh))
      = Some (DatabaseError 2003))
  /\ fst (run_pipeline quotes_write_fails pipeline0 fresh)
     = Raise (DatabaseError 2003).
Proof.
  split; [done|].
  exact (proj1 (failed_quote_load_keeps_dimension_rows quotes_write_fails
                  fresh pipeline0 (snd (init quotes_write_fails fresh)) fresh
                  (DatabaseError 2003) eq_refl eq_refl eq_refl)).
Defined.

(** The schema is missing: the program stops after two events. *)
Lemma connection_failure_stops_program_witness :
  connection_error schema_missing = Some (DatabaseError 2043)
  /\ fst (main schema_missing fresh) = Raise (DatabaseError 2043)
  /\ new_events fresh (snd (main schema_missing fresh))
     = [EvConnect; EvLog ERROR (MsgConnectionFailed (DatabaseError 2043))].
Proof.
  split; [done|].
  destruct (connection_failure_stops_program schema_missing
              (DatabaseError 2043) fresh eq_refl) as (H1 & H2 & _).
  split; [exact H1|exact H2].
Defined.

(** The dimension is loaded twice into a fresh warehouse. *)
Lemma load_twice_appends_twice_witness :
  let dim := assign_stamps (companies_frame catalog) (clock0 0) (clock0 1) in
  let s1 := snd (load_to_snowflake api_exhausted pipeline0 dim
                   "stg_companies" fresh) in
  let rs := load_to_snowflake api_exhausted pipeline0 dim "stg_companies"
              s1 in
  (sf_conn pipeline0 = Some tt
   /\ write_error api_exhausted (writes fresh) = None
   /\ write_error api_exhausted (S (writes fresh)) = None)
  /\ fst rs = Ok tt
  /\ writes (snd rs) = 2%nat.
Proof.
  cbn zeta. split; [done|].
  destruct (load_twice_appends_twice api_exhausted pipeline0
              (assign_stamps (companies_frame catalog) (clock0 0) (clock0 1))
              "stg_companies" fresh tt eq_refl eq_refl eq_refl)
    as (H1 & H2 & _).
  split; [exact H1|exact H2].
Defined.

End AtRuns.
